(** * Rue Organics: order lifecycle and pricing helpers

    A shallow embedding of the order-tracking page ([src/pages/TrackOrder.tsx]),
    the order placement of [src/pages/Checkout.tsx], the price helpers of
    [src/pages/Cart.tsx], [src/pages/Checkout.tsx] and
    [src/pages/ProductDetail.tsx]; then the rest of these pages (the
    tracking page's items and buttons, the product page's selection, cart
    and review handlers, the checkout page's address and
    placement handlers) and the cart store of
    [src/contexts/AuthContext.tsx]. *)

From Stdlib Require Import String Ascii List ZArith NArith QArith Bool Lia DecimalString Sorted Permutation.
Import ListNotations.
#[local] Set Warnings "-register-all".
Local Open Scope string_scope.

(** ** JavaScript values and the JSON codec of the platform

    [JSON.parse] and [JSON.stringify] are platform functions the pages call
    on the [stages] column; they are modelled here over byte strings.  A
    JavaScript string, a sequence of UTF-16 code units, is the byte string
    in which each code unit is written in the UTF-8 pattern of its value
    (one to three bytes, surrogates included: CESU-8), so an ASCII text is
    its own model.  Numbers are IEEE 754 doubles.  Objects are association
    lists in which the last binding of a key is the one property access
    sees. *)
Module Json.
Local Open Scope string_scope.

(** *** Numbers

    A JavaScript number: [NaN], an infinity, or the finite value
    [m * 2^e].  Negative zero is identified with zero: none of the
    operations used here ([String], [JSON.stringify], [===], truthiness)
    tells them apart. *)
Inductive double :=
| DNaN
| DInf (neg : bool)
| DFin (m e : Z).

Local Open Scope Z_scope.

(** A length or a quantity: an integer far below 2^53, so exact. *)
Definition dbl_of_nat (n : nat) : double := DFin (Z.of_nat n) 0.

Definition dbl_truthy (x : double) : bool :=
  match x with
  | DNaN => false
  | DInf _ => true
  | DFin m _ => negb (m =? 0)
  end.

(** [x === y] on numbers: by value, [NaN] equal to nothing. *)
Definition dbl_eqb (x y : double) : bool :=
  match x, y with
  | DFin m1 e1, DFin m2 e2 =>
      let e := Z.min e1 e2 in m1 * 2 ^ (e1 - e) =? m2 * 2 ^ (e2 - e)
  | DInf a, DInf b => Bool.eqb a b
  | _, _ => false
  end.

(** [m * 2^e] with the factors of 2 moved from [m] into [e]. *)
Fixpoint norm2 (fuel : nat) (m e : Z) : double :=
  match fuel with
  | O => DFin m e
  | S f =>
      if m =? 0 then DFin 0 0
      else if Z.even m then norm2 f (m / 2) (e + 1) else DFin m e
  end.

(** [a / (b * 2^e)] as a fraction of integers. *)
Definition scale2 (a b e : Z) : Z * Z :=
  if 0 <=? e then (a, b * 2 ^ e) else (a * 2 ^ (- e), b).

(** The double nearest to [a / b] (for [a >= 0] and [b > 0]), ties to
    even, negated when [neg]: 53 bits of mantissa, the exponent at least
    -1074 (subnormals), magnitudes that round to 2^1024 or beyond give an
    infinity. *)
Definition round_ratio (neg : bool) (a b : Z) : double :=
  let e0 := Z.log2 a - Z.log2 b - 52 in
  let e1 := let '(x, y) := scale2 a b e0 in
            if 2 ^ 53 <=? x / y then e0 + 1 else if x / y <? 2 ^ 52 then e0 - 1 else e0 in
  let e := Z.max e1 (-1074) in
  let '(x, y) := scale2 a b e in
  let q := x / y in
  let r := x mod y in
  let q' := if (y <? 2 * r) || ((2 * r =? y) && Z.odd q) then q + 1 else q in
  if 1024 <=? Z.log2 q' + e then DInf neg
  else norm2 64 (if neg then - q' else q') e.

(** The double nearest to [d * 10^x], for [d >= 0]: the value of a decimal
    literal.  Past the two bounds the result is already decided (from
    [10^401] on it is an infinity, below [10^-400] it is zero), which keeps
    the powers of ten computed small. *)
Definition dec_to_double (neg : bool) (d x : Z) : double :=
  if d =? 0 then DFin 0 0
  else if 400 <? x then DInf neg
  else if x + Z.log2 d + 1 <? -400 then DFin 0 0
  else if 0 <=? x then round_ratio neg (d * 10 ^ x) 1
  else round_ratio neg d (10 ^ (- x)).

Fixpoint ndigits_aux (fuel : nat) (n : Z) : Z :=
  match fuel with
  | O => 1
  | S f => if n <? 10 then 1 else 1 + ndigits_aux f (n / 10)
  end.

(** The number of decimal digits of [n > 0]. *)
Definition ndigits (n : Z) : Z := ndigits_aux (Z.to_nat (Z.log2 n + 1)) n.

(** [a / b >= 10^t] *)
Definition ge_pow10 (a b t : Z) : bool :=
  if 0 <=? t then b * 10 ^ t <=? a else b <=? a * 10 ^ (- t).

(** [a / (b * 10^p)] as a fraction of integers. *)
Definition scale10 (a b p : Z) : Z * Z :=
  if 0 <=? p then (a, b * 10 ^ p) else (a * 10 ^ (- p), b).

(** The [s] and [n] of Number::toString (ECMA-262, Number::toString,
    step 5) for the positive finite double [x = a / b], with
    [10^L <= x < 10^(L+1)]: [s * 10^(n-k)] reads back as [x], [s] has [k]
    digits and [k] is as small as possible; of two such [s] the one nearer
    [x], and of two as near the even one.  The candidates for [k] digits
    are the two [k]-digit decimals around [x]; 17 digits always suffice. *)
Fixpoint shortest (x : double) (a b L k : Z) (fuel : nat) : Z * Z :=
  let p := L - k + 1 in
  let '(u, v) := scale10 a b p in
  let s := u / v in
  let r := u mod v in
  let lo := (s, p + k) in
  let hi := if s + 1 =? 10 ^ k then (10 ^ (k - 1), p + k + 1) else (s + 1, p + k) in
  let lo_ok := dbl_eqb (dec_to_double false s p) x in
  let hi_ok := dbl_eqb (dec_to_double false (s + 1) p) x in
  if lo_ok && hi_ok then
    (if 2 * r <? v then lo else if v <? 2 * r then hi
     else if Z.even (fst lo) then lo else hi)
  else if lo_ok then lo
  else if hi_ok then hi
  else match fuel with
       | O => lo
       | S f => shortest x a b L (k + 1) f
       end.

Definition string_of_Z (n : Z) : string :=
  match n with
  | Z0 => "0"
  | Zpos p => DecimalString.NilEmpty.string_of_uint (Pos.to_uint p)
  | Zneg p => String "-"%char (DecimalString.NilEmpty.string_of_uint (Pos.to_uint p))
  end.

Definition zeros (n : Z) : string := string_of_list_ascii (repeat "0"%char (Z.to_nat n)).

(** The digits of [s] placed by the exponent [n] (Number::toString,
    steps 6 to 10). *)
Definition format_decimal (s n : Z) : string :=
  let ds := string_of_Z s in
  let k := Z.of_nat (String.length ds) in
  if (k <=? n) && (n <=? 21) then ds ++ zeros (n - k)
  else if (0 <? n) && (n <=? 21) then
    substring 0 (Z.to_nat n) ds ++ "." ++ substring (Z.to_nat n) (Z.to_nat (k - n)) ds
  else if (-6 <? n) && (n <=? 0) then "0." ++ zeros (- n) ++ ds
  else
    let e := n - 1 in
    let es := (if e <? 0 then "-" else "+") ++ string_of_Z (Z.abs e) in
    if k =? 1 then ds ++ "e" ++ es
    else substring 0 1 ds ++ "." ++ substring 1 (Z.to_nat (k - 1)) ds ++ "e" ++ es.

(** [String(x)] for a number: Number::toString in base 10. *)
Definition number_to_string (x : double) : string :=
  match x with
  | DNaN => "NaN"
  | DInf neg => if neg then "-Infinity" else "Infinity"
  | DFin m e =>
      if m =? 0 then "0"
      else
        let a := Z.abs m * 2 ^ (Z.max e 0) in
        let b := 2 ^ (Z.max (- e) 0) in
        let d := ndigits a - ndigits b in
        let L := if ge_pow10 a b d then d else d - 1 in
        let '(s, n) := shortest (DFin (Z.abs m) e) a b L 1 16 in
        (if m <? 0 then "-" else "") ++ format_decimal s n
  end.

(** A number as [JSON.stringify] writes it: [NaN] and the infinities as
    [null]. *)
Definition number_to_json (x : double) : string :=
  match x with
  | DFin _ _ => number_to_string x
  | _ => "null"
  end.

Local Close Scope Z_scope.
Local Open Scope nat_scope.

(** *** Values *)

Inductive jsval : Type :=
| JUndef
| JNull
| JBool (b : bool)
| JNum (n : double)
| JStr (s : string)
| JArr (l : list jsval)
| JObj (m : list (string * jsval)).

(** JavaScript truthiness. *)
Definition truthy (v : jsval) : bool :=
  match v with
  | JUndef | JNull => false
  | JBool b => b
  | JNum n => dbl_truthy n
  | JStr s => negb (String.eqb s EmptyString)
  | JArr _ | JObj _ => true
  end.

(** [a || b] *)
Definition js_or (a b : jsval) : jsval := if truthy a then a else b.

Fixpoint lookup_last (k : string) (m : list (string * jsval)) : option jsval :=
  match m with
  | [] => None
  | (k', v) :: m' =>
      match lookup_last k m' with
      | Some w => Some w
      | None => if String.eqb k k' then Some v else None
      end
  end.

Definition get_member (k : string) (m : list (string * jsval)) : jsval :=
  match lookup_last k m with Some v => v | None => JUndef end.

(** *** Code units *)

(** A continuation byte [10xxxxxx] of a multi-byte code unit. *)
Definition is_cont (c : ascii) : bool :=
  (128 <=? nat_of_ascii c) && (nat_of_ascii c <? 192).

(** The number of code units of a string (its [length]). *)
Fixpoint utf16_length (s : string) : nat :=
  match s with
  | EmptyString => 0
  | String c r => (if is_cont c then 0 else 1) + utf16_length r
  end.

Fixpoint cont_prefix (s : string) : string :=
  match s with
  | String c r => if is_cont c then String c (cont_prefix r) else EmptyString
  | EmptyString => EmptyString
  end.

(** [v.k] for a named, non-index key [k]; [None] is the [TypeError] raised on
    [null] and [undefined]. *)
Definition getprop (v : jsval) (k : string) : option jsval :=
  match v with
  | JUndef | JNull => None
  | JObj m => Some (get_member k m)
  | JArr l => Some (if String.eqb k "length" then JNum (dbl_of_nat (List.length l)) else JUndef)
  | JStr s => Some (if String.eqb k "length" then JNum (dbl_of_nat (utf16_length s)) else JUndef)
  | JBool _ | JNum _ => Some JUndef
  end.

(** [v[0]]; on a string, its first code unit. *)
Definition index0 (v : jsval) : option jsval :=
  match v with
  | JUndef | JNull => None
  | JArr (x :: _) => Some x
  | JArr [] => Some JUndef
  | JStr (String c r) => Some (JStr (String c (cont_prefix r)))
  | JStr EmptyString => Some JUndef
  | JObj m => Some (get_member "0" m)
  | JBool _ | JNum _ => Some JUndef
  end.

(** [a === b] where one side is a primitive (objects are compared by
    reference and are never identical to a primitive). *)
Definition strict_eq (a b : jsval) : bool :=
  match a, b with
  | JUndef, JUndef | JNull, JNull => true
  | JBool x, JBool y => Bool.eqb x y
  | JNum x, JNum y => dbl_eqb x y
  | JStr x, JStr y => String.eqb x y
  | _, _ => false
  end.

(** *** Characters *)

Definition ch_quote : ascii := "034"%char.
Definition ch_bslash : ascii := "092"%char.

Definition is_ws (c : ascii) : bool :=
  Ascii.eqb c " "%char || Ascii.eqb c "009"%char
  || Ascii.eqb c "010"%char || Ascii.eqb c "013"%char.

Definition is_digit (c : ascii) : bool :=
  (48 <=? nat_of_ascii c) && (nat_of_ascii c <=? 57).

(** Code units are numbers in [N]. *)
Definition hex_val (c : ascii) : option N :=
  let n := N_of_ascii c in
  if (48 <=? n)%N && (n <=? 57)%N then Some (n - 48)%N
  else if (97 <=? n)%N && (n <=? 102)%N then Some (n - 87)%N
  else if (65 <=? n)%N && (n <=? 70)%N then Some (n - 55)%N
  else None.

Definition hex4 (a b c d : ascii) : option N :=
  match hex_val a, hex_val b, hex_val c, hex_val d with
  | Some x, Some y, Some z, Some w => Some (((x * 16 + y) * 16 + z) * 16 + w)%N
  | _, _, _, _ => None
  end.

(** The bytes of the code unit [n < 65536]. *)
Definition cesu_bytes (n : N) : string :=
  if (n <? 128)%N then String (ascii_of_N n) EmptyString
  else if (n <? 2048)%N then
    String (ascii_of_N (192 + n / 64)) (String (ascii_of_N (128 + n mod 64)) EmptyString)
  else
    String (ascii_of_N (224 + n / 4096))
      (String (ascii_of_N (128 + (n / 64) mod 64)) (String (ascii_of_N (128 + n mod 64)) EmptyString)).

(** The one-character escapes of JSON other than [\u]. *)
Definition unescape (e : ascii) : option ascii :=
  if Ascii.eqb e ch_quote then Some ch_quote
  else if Ascii.eqb e ch_bslash then Some ch_bslash
  else if Ascii.eqb e "/"%char then Some "/"%char
  else if Ascii.eqb e "b"%char then Some "008"%char
  else if Ascii.eqb e "f"%char then Some "012"%char
  else if Ascii.eqb e "n"%char then Some "010"%char
  else if Ascii.eqb e "r"%char then Some "013"%char
  else if Ascii.eqb e "t"%char then Some "009"%char
  else None.

(** *** The decoder *)

Fixpoint skip_ws (s : string) : string :=
  match s with
  | String c r => if is_ws c then skip_ws r else s
  | EmptyString => EmptyString
  end.

Definition cons_res (c : ascii) (o : option (string * string)) : option (string * string) :=
  match o with
  | Some (x, r) => Some (String c x, r)
  | None => None
  end.

Definition app_res (p : string) (o : option (string * string)) : option (string * string) :=
  match o with
  | Some (x, r) => Some (p ++ x, r)
  | None => None
  end.

(** The body of a string literal, after its opening quote; [\uXXXX] gives
    the code unit [XXXX]. *)
Fixpoint parse_str (s : string) : option (string * string) :=
  match s with
  | EmptyString => None
  | String c r =>
      if Ascii.eqb c ch_quote then Some (EmptyString, r)
      else if Ascii.eqb c ch_bslash then
        match r with
        | String e r' =>
            if Ascii.eqb e "u"%char then
              match r' with
              | String h1 (String h2 (String h3 (String h4 r''))) =>
                  match hex4 h1 h2 h3 h4 with
                  | Some n => app_res (cesu_bytes n) (parse_str r'')
                  | None => None
                  end
              | _ => None
              end
            else
              match unescape e with
              | Some c' => cons_res c' (parse_str r')
              | None => None
              end
        | EmptyString => None
        end
      else if nat_of_ascii c <? 32 then None
      else cons_res c (parse_str r)
  end.

Fixpoint read_digits (s : string) : list nat * string :=
  match s with
  | String c r =>
      if is_digit c then
        let '(ds, r') := read_digits r in (nat_of_ascii c - 48 :: ds, r')
      else ([], s)
  | EmptyString => ([], EmptyString)
  end.

Definition digits_value (ds : list nat) : Z :=
  fold_left (fun acc d => (acc * 10 + Z.of_nat d)%Z) ds 0%Z.

(** The optional exponent part [(e|E) [+|-] digits] of a number. *)
Definition parse_exponent (s : string) : option (Z * string) :=
  match s with
  | String c r =>
      if Ascii.eqb c "e"%char || Ascii.eqb c "E"%char then
        let '(neg, r') := match r with
                          | String c' r'' =>
                              if Ascii.eqb c' "+"%char then (false, r'')
                              else if Ascii.eqb c' "-"%char then (true, r'')
                              else (false, r)
                          | EmptyString => (false, r)
                          end in
        match read_digits r' with
        | ([], _) => None
        | (ds, r3) => Some (if neg then Z.opp (digits_value ds) else digits_value ds, r3)
        end
      else Some (0%Z, s)
  | EmptyString => Some (0%Z, s)
  end.

(** A number literal after its optional minus sign:
    [0] or a digit other than [0] followed by digits, then an optional
    fraction [. digits] and an optional exponent, read as the nearest
    double. *)
Definition parse_number (neg : bool) (s : string) : option (jsval * string) :=
  let '(ip, r1) := match s with
                   | String c r => if Ascii.eqb c "0"%char then ([0], r) else read_digits s
                   | EmptyString => ([], EmptyString)
                   end in
  match ip with
  | [] => None
  | _ :: _ =>
      let frac :=
        match r1 with
        | String c r =>
            if Ascii.eqb c "."%char then
              match read_digits r with
              | ([], _) => None
              | (fp, r2) => Some (fp, r2)
              end
            else Some ([], r1)
        | EmptyString => Some ([], r1)
        end in
      match frac with
      | None => None
      | Some (fp, r2) =>
          match parse_exponent r2 with
          | None => None
          | Some (x, r3) =>
              Some (JNum (dec_to_double neg (digits_value (ip ++ fp))
                            (x - Z.of_nat (List.length fp))%Z), r3)
          end
      end
  end.

Fixpoint strip_prefix (p s : string) : option string :=
  match p, s with
  | EmptyString, _ => Some s
  | String a p', String b s' => if Ascii.eqb a b then strip_prefix p' s' else None
  | String _ _, EmptyString => None
  end.

Definition parse_literal (s : string) : option (jsval * string) :=
  match strip_prefix "null" s with
  | Some r => Some (JNull, r)
  | None =>
      match strip_prefix "true" s with
      | Some r => Some (JBool true, r)
      | None =>
          match strip_prefix "false" s with
          | Some r => Some (JBool false, r)
          | None => None
          end
      end
  end.

Fixpoint parse_value (fuel : nat) (s : string) {struct fuel} : option (jsval * string) :=
  match fuel with
  | O => None
  | S f =>
      match skip_ws s with
      | String c r =>
          if Ascii.eqb c "["%char then
            match skip_ws r with
            | String c' r' =>
                if Ascii.eqb c' "]"%char then Some (JArr [], r')
                else match parse_elems f r with
                     | Some (l, r'') => Some (JArr l, r'')
                     | None => None
                     end
            | EmptyString => None
            end
          else if Ascii.eqb c "{"%char then
            match skip_ws r with
            | String c' r' =>
                if Ascii.eqb c' "}"%char then Some (JObj [], r')
                else match parse_members f r with
                     | Some (m, r'') => Some (JObj m, r'')
                     | None => None
                     end
            | EmptyString => None
            end
          else if Ascii.eqb c ch_quote then
            match parse_str r with
            | Some (x, r') => Some (JStr x, r')
            | None => None
            end
          else if Ascii.eqb c "-"%char then parse_number true r
          else if is_digit c then parse_number false (String c r)
          else parse_literal (String c r)
      | EmptyString => None
      end
  end
with parse_elems (fuel : nat) (s : string) {struct fuel} : option (list jsval * string) :=
  match fuel with
  | O => None
  | S f =>
      match parse_value f s with
      | Some (v, r) =>
          match skip_ws r with
          | String c r' =>
              if Ascii.eqb c ","%char then
                match parse_elems f r' with
                | Some (vs, r'') => Some (v :: vs, r'')
                | None => None
                end
              else if Ascii.eqb c "]"%char then Some ([v], r')
              else None
          | EmptyString => None
          end
      | None => None
      end
  end
with parse_members (fuel : nat) (s : string) {struct fuel}
  : option (list (string * jsval) * string) :=
  match fuel with
  | O => None
  | S f =>
      match skip_ws s with
      | String c r =>
          if Ascii.eqb c ch_quote then
            match parse_str r with
            | Some (k, r1) =>
                match skip_ws r1 with
                | String c1 r2 =>
                    if Ascii.eqb c1 ":"%char then
                      match parse_value f r2 with
                      | Some (v, r3) =>
                          match skip_ws r3 with
                          | String c3 r4 =>
                              if Ascii.eqb c3 ","%char then
                                match parse_members f r4 with
                                | Some (ms, r5) => Some ((k, v) :: ms, r5)
                                | None => None
                                end
                              else if Ascii.eqb c3 "}"%char then Some ([(k, v)], r4)
                              else None
                          | EmptyString => None
                          end
                      | None => None
                      end
                    else None
                | EmptyString => None
                end
            | None => None
            end
          else None
      | EmptyString => None
      end
  end.

(** [JSON.parse(text)]; [None] is the [SyntaxError].  Every value of the
    text costs at most two units of fuel per character. *)
Definition JSON_parse (text : string) : option jsval :=
  match parse_value (2 * String.length text + 2) text with
  | Some (v, r) =>
      match skip_ws r with
      | EmptyString => Some v
      | String _ _ => None
      end
  | None => None
  end.

(** *** The encoder *)

Definition hex_digit (n : N) : ascii :=
  if (n <? 10)%N then ascii_of_N (48 + n) else ascii_of_N (87 + n).

(** [\uXXXX] with lower-case hexadecimal digits, for [u < 65536]. *)
Definition esc_unit (u : N) : string :=
  let r1 := (u mod 4096)%N in
  let r2 := (r1 mod 256)%N in
  String ch_bslash (String "u"%char
    (String (hex_digit (u / 4096)) (String (hex_digit (r1 / 256))
      (String (hex_digit (r2 / 16)) (String (hex_digit (r2 mod 16)) EmptyString))))).

Definition esc_char (c : ascii) : string :=
  if Ascii.eqb c ch_quote then String ch_bslash (String ch_quote EmptyString)
  else if Ascii.eqb c ch_bslash then String ch_bslash (String ch_bslash EmptyString)
  else if Ascii.eqb c "008"%char then String ch_bslash "b"
  else if Ascii.eqb c "009"%char then String ch_bslash "t"
  else if Ascii.eqb c "010"%char then String ch_bslash "n"
  else if Ascii.eqb c "012"%char then String ch_bslash "f"
  else if Ascii.eqb c "013"%char then String ch_bslash "r"
  else if nat_of_ascii c <? 32 then
    String ch_bslash (String "u"%char (String "0"%char (String "0"%char
      (String (hex_digit (N_of_ascii c / 16))
        (String (hex_digit (N_of_ascii c mod 16)) EmptyString)))))
  else String c EmptyString.

(** The surrogate code unit ([0xD800] to [0xDFFF]) written by the three
    bytes [c1 c2 c3], if they write one. *)
Definition surrogate_unit (c1 c2 c3 : ascii) : option N :=
  if (nat_of_ascii c1 =? 237) && (160 <=? nat_of_ascii c2) && (nat_of_ascii c2 <? 192)
     && is_cont c3
  then Some (53248 + 64 * (N_of_ascii c2 - 128) + (N_of_ascii c3 - 128))%N
  else None.

(** The string starts with a low surrogate ([0xDC00] to [0xDFFF]). *)
Definition starts_low (s : string) : bool :=
  match s with
  | String c1 (String c2 (String c3 _)) =>
      match surrogate_unit c1 c2 c3 with
      | Some u => (56320 <=? u)%N
      | None => false
      end
  | _ => false
  end.

(** The body of a string literal.  A surrogate that is not half of a pair
    is written as [\uXXXX] (well-formed [JSON.stringify]); [paired] tells
    whether the previous code unit is a high surrogate written as the
    first half of a pair. *)
Fixpoint esc_from (paired : bool) (s : string) {struct s} : string :=
  match s with
  | EmptyString => EmptyString
  | String c1 s1 =>
      match s1 with
      | String c2 (String c3 r) =>
          match surrogate_unit c1 c2 c3 with
          | Some u =>
              if (u <? 56320)%N then
                if starts_low r then String c1 (String c2 (String c3 (esc_from true r)))
                else esc_unit u ++ esc_from false r
              else if paired then String c1 (String c2 (String c3 (esc_from false r)))
              else esc_unit u ++ esc_from false r
          | None => esc_char c1 ++ esc_from false s1
          end
      | _ => esc_char c1 ++ esc_from false s1
      end
  end.

Definition esc (s : string) : string := esc_from false s.

Definition ser_str (s : string) : string :=
  String ch_quote (esc s ++ String ch_quote EmptyString).

Fixpoint join (xs : list string) : string :=
  match xs with
  | [] => EmptyString
  | [x] => x
  | x :: xs' => x ++ "," ++ join xs'
  end.

Fixpoint ser (v : jsval) : string :=
  match v with
  | JUndef | JNull => "null"
  | JBool true => "true"
  | JBool false => "false"
  | JNum n => number_to_json n
  | JStr s => ser_str s
  | JArr l => "[" ++ join (map ser l) ++ "]"
  | JObj m =>
      "{" ++ join (flat_map (fun '(k, x) =>
                     match x with
                     | JUndef => []
                     | _ => [ser_str k ++ ":" ++ ser x]
                     end) m) ++ "}"
  end.

(** [JSON.stringify(v)]: [undefined] at the top level gives [undefined];
    inside an array it is written [null], inside an object its member is
    left out. *)
Definition JSON_stringify (v : jsval) : option string :=
  match v with
  | JUndef => None
  | _ => Some (ser v)
  end.

(** The values whose text the statements read back: no number and no
    [undefined] anywhere inside. *)
Fixpoint plain (v : jsval) : bool :=
  match v with
  | JUndef | JNum _ => false
  | JArr l => forallb plain l
  | JObj m => forallb (fun '(_, x) => plain x) m
  | JNull | JBool _ | JStr _ => true
  end.

(** The fuel the decoder spends on a value. *)
Fixpoint jsize (v : jsval) : nat :=
  match v with
  | JArr l => list_sum (map (fun x => 2 + jsize x) l)
  | JObj m => list_sum (map (fun '(_, x) => 2 + jsize x) m)
  | _ => 0
  end.

(** One member of an encoded object. *)
Definition member_text (kv : string * jsval) : string :=
  let '(k, x) := kv in ser_str k ++ ":" ++ ser x.

(** Induction over values, through the lists they contain. *)
Section JsvalInd.
Variable P : jsval -> Prop.
Hypothesis HUndef : P JUndef.
Hypothesis HNull : P JNull.
Hypothesis HBool : forall b, P (JBool b).
Hypothesis HNum : forall n, P (JNum n).
Hypothesis HStr : forall s, P (JStr s).
Hypothesis HArr : forall l, Forall P l -> P (JArr l).
Hypothesis HObj : forall m, Forall (fun kv => P (snd kv)) m -> P (JObj m).

Fixpoint jsval_rect' (v : jsval) : P v :=
  match v with
  | JUndef => HUndef
  | JNull => HNull
  | JBool b => HBool b
  | JNum n => HNum n
  | JStr s => HStr s
  | JArr l =>
      HArr l ((fix go (l : list jsval) : Forall P l :=
                 match l with
                 | [] => Forall_nil P
                 | x :: r => Forall_cons x (jsval_rect' x) (go r)
                 end) l)
  | JObj m =>
      HObj m ((fix go (m : list (string * jsval)) : Forall (fun kv => P (snd kv)) m :=
                 match m with
                 | [] => Forall_nil _
                 | (k, x) :: r => Forall_cons (P := fun kv => P (snd kv)) (k, x) (jsval_rect' x) (go r)
                 end) m)
  end.
End JsvalInd.

(** The decoder reads back what the encoder wrote, given enough fuel. *)
Definition parses_back (v : jsval) : Prop :=
  plain v = true -> forall f rest, jsize v < f -> parse_value f (ser v ++ rest) = Some (v, rest).

End Json.

(** ** The order records and the tracking page ([TrackOrder.tsx]) *)
Module Orders.
Import Json.
Local Open Scope string_scope.
Local Open Scope nat_scope.

(** [interface Stage { name; timestamp?; completed }]; the fields hold
    whatever the decoded record carried. *)
Record Stage := mkStage {
  name : jsval;
  timestamp : jsval;
  completed : bool
}.

(** A row of the [orders] table, as far as the tracking page reads it. *)
Record Row := mkRow {
  r_id : string;
  r_user_id : string;
  r_status : jsval;
  r_stages : option string;
  r_created_at : string
}.

Definition Table := list Row.

(** The order held by the page after [queryFn] ([interface Order]); the
    enrichment of [items] is left out. *)
Record Order := mkOrder {
  o_id : string;
  o_user_id : string;
  o_status : jsval;
  o_stages : list Stage;
  o_created_at : string;
  o_delivery_address : jsval;
  o_instructions : jsval
}.

(** The fallback workflow of the [catch] branch (lines 168-175). *)
Definition default_stages (created_at : string) : list Stage :=
  [ mkStage (JStr "Order Placed") (JStr created_at) true;
    mkStage (JStr "Payment Pending") (JStr EmptyString) false;
    mkStage (JStr "Processing") (JStr EmptyString) false;
    mkStage (JStr "Shipped") (JStr EmptyString) false;
    mkStage (JStr "Delivered") (JStr EmptyString) false;
    mkStage (JStr "Confirmed Received") (JStr EmptyString) false ].

(** The workflow literal of the delivery-record branch (lines 143-150),
    before normalisation. *)
Definition default_entries (created_at : string) : list jsval :=
  [ JObj [("name", JStr "Order Placed"); ("completed", JBool true); ("timestamp", JStr created_at)];
    JObj [("name", JStr "Payment Pending"); ("completed", JBool false); ("timestamp", JStr EmptyString)];
    JObj [("name", JStr "Processing"); ("completed", JBool false); ("timestamp", JStr EmptyString)];
    JObj [("name", JStr "Shipped"); ("completed", JBool false); ("timestamp", JStr EmptyString)];
    JObj [("name", JStr "Delivered"); ("completed", JBool false); ("timestamp", JStr EmptyString)];
    JObj [("name", JStr "Confirmed Received"); ("completed", JBool false); ("timestamp", JStr EmptyString)] ].

(** [({ name: s.name || s.stage || 'Unknown', timestamp: s.timestamp || '',
    completed: !!s.completed })]; [None] when [s] is [null]. *)
Definition normalize_entry (s : jsval) : option Stage :=
  match getprop s "name", getprop s "stage", getprop s "timestamp", getprop s "completed" with
  | Some n, Some st, Some ts, Some c =>
      Some (mkStage (js_or n (js_or st (JStr "Unknown"))) (js_or ts (JStr EmptyString)) (truthy c))
  | _, _, _, _ => None
  end.

(** [parsedStages.map(...)] with the above callback. *)
Fixpoint map_entries (l : list jsval) : option (list Stage) :=
  match l with
  | [] => Some []
  | s :: r =>
      match normalize_entry s with
      | Some st =>
          match map_entries r with
          | Some sts => Some (st :: sts)
          | None => None
          end
      | None => None
      end
  end.

(** [parsedStages.find(s => s.address)]: [Some (Some d)] found, [Some None]
    not found, [None] the [TypeError] on a [null] entry. *)
Fixpoint find_address (l : list jsval) : option (option jsval) :=
  match l with
  | [] => Some None
  | s :: r =>
      match getprop s "address" with
      | None => None
      | Some a => if truthy a then Some (Some s) else find_address r
      end
  end.

(** [e.k || ''] for an entry [e] already known not to be [null]. *)
Definition prop_or_empty (e : jsval) (k : string) : jsval :=
  match getprop e k with
  | Some a => js_or a (JStr EmptyString)
  | None => JStr EmptyString
  end.

(** What the stage-parsing block (lines 131-176) leaves behind:
    [parsedStages], [deliveryAddress] and [instructions]. *)
Record Parsed := mkParsed {
  p_stages : list Stage;
  p_address : jsval;
  p_instructions : jsval
}.

(** The stage-parsing block of [queryFn].  [raw] is [data.stages], written
    by the pages as [JSON.stringify] text; [None] is [null]/[undefined].
    Every [TypeError] or [SyntaxError] of the [try] block ends in the
    [catch] branch, which keeps [deliveryAddress]/[instructions] as they
    were at the throw. *)
Definition parse_stages (raw : option string) (created_at : string) : Parsed :=
  let empty := JStr EmptyString in
  let text := match raw with
              | Some s => if String.eqb s EmptyString then "[]" else s
              | None => "[]"
              end in
  let fallback a i := mkParsed (default_stages created_at) a i in
  match JSON_parse text with
  | None => fallback empty empty
  | Some p =>
      match getprop p "length" with
      | None => fallback empty empty
      | Some len =>
          (* parsedStages.length === 1 && parsedStages[0].stage === 'delivery' *)
          let first_delivery : option (option jsval) :=
            if strict_eq len (JNum (DFin 1 0)) then
              match index0 p with
              | None => None
              | Some e =>
                  match getprop e "stage" with
                  | None => None
                  | Some st => Some (if strict_eq st (JStr "delivery") then Some e else None)
                  end
              end
            else Some None in
          match first_delivery with
          | None => fallback empty empty
          | Some (Some e) =>
              let a := prop_or_empty e "address" in
              let i := prop_or_empty e "instructions" in
              match map_entries (default_entries created_at) with
              | Some ss => mkParsed ss a i
              | None => fallback a i
              end
          | Some None =>
              match p with
              | JArr l =>
                  match find_address l with
                  | None => fallback empty empty
                  | Some found =>
                      let a := match found with Some d => prop_or_empty d "address" | None => empty end in
                      let i := match found with Some d => prop_or_empty d "instructions" | None => empty end in
                      match map_entries l with
                      | Some ss => mkParsed ss a i
                      | None => fallback a i
                      end
                  end
              | _ => fallback empty empty (* parsedStages.find is not a function *)
              end
          end
      end
  end.

(** The reasons [queryFn] throws. *)
Inductive QueryError :=
| NoOrderId        (* 'No order ID provided' *)
| PleaseSignIn     (* 'Please sign in' *)
| NotAuthenticated (* 'User not authenticated' *)
| FetchError       (* the error of [.single()]: no row or several rows *)
| AccessDenied.    (* 'Access denied' *)

(** [.from('orders').select('*').eq('id', orderId).single()] *)
Definition select_single (t : Table) (id : string) : option Row :=
  match filter (fun r => String.eqb r.(r_id) id) t with
  | [r] => Some r
  | _ => None
  end.

(** [queryFn] of the tracking page (items enrichment left out);
    [user] is [user?.id]. *)
Definition queryFn (t : Table) (orderId : option string) (session : bool)
    (user : option string) : QueryError + Order :=
  match orderId with
  | None => inl NoOrderId
  | Some oid =>
      if String.eqb oid EmptyString then inl NoOrderId
      else if negb session then inl PleaseSignIn
      else match user with
           | None => inl NotAuthenticated
           | Some uid =>
               match select_single t oid with
               | None => inl FetchError
               | Some data =>
                   if negb (String.eqb data.(r_user_id) uid) then inl AccessDenied
                   else
                     let ps := parse_stages data.(r_stages) data.(r_created_at) in
                     inr (mkOrder data.(r_id) data.(r_user_id) data.(r_status) ps.(p_stages)
                            data.(r_created_at) ps.(p_address) ps.(p_instructions))
               end
           end
  end.

(** The page's [order] state: [setOrder(fetchedOrder)] on success. *)
Definition load (t : Table) (orderId : string) (session : bool) (user : option string)
  : option Order :=
  match queryFn t (Some orderId) session user with
  | inr o => Some o
  | inl _ => None
  end.

(** *** Writes *)

(** [.update({ status, stages }).eq('id', orderId).eq('user_id', user.id)] *)
Record Update := mkUpdate {
  u_id : string;
  u_user_id : string;
  u_status : jsval;
  u_stages : option string
}.

(** The storage side of an update: every row matching both filters is
    rewritten; a key whose value is [undefined] is not sent. *)
Definition apply_update (u : Update) (t : Table) : Table :=
  map (fun r =>
         if String.eqb r.(r_id) u.(u_id) && String.eqb r.(r_user_id) u.(u_user_id) then
           mkRow r.(r_id) r.(r_user_id) u.(u_status)
                 (match u.(u_stages) with Some s => Some s | None => r.(r_stages) end)
                 r.(r_created_at)
         else r) t.

Inductive Effect :=
| EAlert (msg : string)
| ERefetch
| EUncaught. (* an exception escaping the handler *)

Record Outcome := mkOutcome {
  out_table : Table;
  out_writes : list Update;
  out_effects : list Effect
}.

Definition nop (t : Table) : Outcome := mkOutcome t [] [].

(** [await supabase...update(...)]: [ok] is whether the request succeeds;
    a failed request leaves the table as it was. *)
Definition write (ok : bool) (t : Table) (u : Update) (on_ok on_err : list Effect) : Outcome :=
  if ok then mkOutcome (apply_update u t) [u] on_ok
  else mkOutcome t [u] on_err.

Definition stage_json (s : Stage) : jsval :=
  JObj [("name", s.(name)); ("timestamp", s.(timestamp)); ("completed", JBool s.(completed))].

(** [JSON.stringify(updatedStages)] *)
Definition stages_text (ss : list Stage) : option string :=
  JSON_stringify (JArr (map stage_json ss)).

(** [order.stages.findIndex(s => !s.completed)], [None] for [-1]. *)
Fixpoint find_incomplete (ss : list Stage) : option nat :=
  match ss with
  | [] => None
  | s :: r => if negb s.(completed) then Some 0 else option_map S (find_incomplete r)
  end.

(** [arr[i] = x] for an index inside the array. *)
Fixpoint list_set {A : Type} (l : list A) (i : nat) (x : A) : list A :=
  match l, i with
  | [], _ => []
  | _ :: r, 0 => x :: r
  | y :: r, S j => y :: list_set r j x
  end.

Definition dummy_stage : Stage := mkStage JUndef JUndef false.

(** [{ ...s, completed: true, timestamp: now }] *)
Definition complete_at (s : Stage) (now : string) : Stage :=
  mkStage s.(name) (JStr now) true.

Definition last_opt {A : Type} (l : list A) : option A :=
  match rev l with
  | [] => None
  | x :: _ => Some x
  end.

(** [advanceStage] (lines 218-240); [now] is [new Date().toISOString()]. *)
Definition advanceStage (ok : bool) (t : Table) (order : option Order) (user : option string)
    (orderId : string) (now : string) : Outcome :=
  match order, user with
  | Some o, Some uid =>
      match find_incomplete o.(o_stages) with
      | Some i =>
          if S i <? List.length o.(o_stages) then
            let updated := list_set o.(o_stages) i (complete_at (nth i o.(o_stages) dummy_stage) now) in
            write ok t
              (mkUpdate orderId uid (nth (S i) updated dummy_stage).(name) (stages_text updated))
              [ERefetch]
              [EAlert "Failed to advance stage. Please contact support."]
          else nop t
      | None => nop t
      end
  | _, _ => nop t
  end.

(** [confirmReceipt] (lines 242-263).  With no stage at all,
    [order.stages[-1].completed] throws. *)
Definition confirmReceipt (ok : bool) (t : Table) (order : option Order) (user : option string)
    (orderId : string) (now : string) : Outcome :=
  match order, user with
  | Some o, Some uid =>
      match last_opt o.(o_stages) with
      | None => mkOutcome t [] [EUncaught]
      | Some l =>
          if l.(completed) then nop t
          else
            let updated := list_set o.(o_stages) (List.length o.(o_stages) - 1) (complete_at l now) in
            write ok t
              (mkUpdate orderId uid (JStr "Confirmed Received") (stages_text updated))
              [EAlert "Order confirmed as received! Thank you."; ERefetch]
              [EAlert "Failed to confirm receipt. Please contact support."]
      end
  | _, _ => nop t
  end.

(** The condition under which the page renders the Confirm Received
    button (lines 414-421); with no stage the render itself throws. *)
Definition confirm_button_shown (o : Order) : bool :=
  match last_opt o.(o_stages) with
  | Some l => strict_eq l.(name) (JStr "Delivered") && negb l.(completed)
  | None => false
  end.

(** ** Order placement ([Checkout.tsx], [handlePlaceOrder]) *)

Record DeliveryInfo := mkDeliveryInfo {
  address : string;
  instructions : string
}.

(** [deliveryStages] (lines 140-142) *)
Definition deliveryStages (d : DeliveryInfo) : jsval :=
  JArr [JObj [("stage", JStr "delivery"); ("address", JStr d.(address));
              ("instructions", JStr d.(instructions)); ("status", JStr "pending")]].

(** The row inserted by [handlePlaceOrder] when [user && deliveryInfo.address];
    [new_id] and [created_at] are assigned by the database. *)
Definition placeOrderRow (user : option string) (d : DeliveryInfo) (new_id created_at : string)
  : option Row :=
  match user with
  | Some uid =>
      if String.eqb d.(address) EmptyString then None
      else Some (mkRow new_id uid (JStr "Order Placed (Making Order)")
                   (JSON_stringify (deliveryStages d)) created_at)
  | None => None
  end.

(** ** Properties of stage lists used by the statements *)

(** A timestamp the normalisation leaves as it is: truthy, or [''] . *)
Definition ts_ok (t : jsval) : bool :=
  match t with
  | JStr EmptyString => true
  | _ => truthy t
  end.

(** A stage that normalisation reproduces and the codec reads back. *)
Definition canonical_stage (s : Stage) : bool :=
  truthy s.(name) && ts_ok s.(timestamp) && plain s.(name) && plain s.(timestamp).



(** The two transitions the page offers, as the buttons call them: on the
    order [queryFn] loaded and the signed-in user. *)
Inductive Op := OpAdvance | OpConfirm.

Definition run_op (op : Op) (ok : bool) (t : Table) (oid uid now : string) : Outcome :=
  match op with
  | OpAdvance => advanceStage ok t (load t oid true (Some uid)) (Some uid) oid now
  | OpConfirm => confirmReceipt ok t (load t oid true (Some uid)) (Some uid) oid now
  end.

(** Tables reachable from an order placed at checkout through transitions
    on it, with any clock readings and any write outcomes. *)
Inductive reachable (oid uid : string) : Table -> Prop :=
| reach_place : forall d created_at r,
    placeOrderRow (Some uid) d oid created_at = Some r -> reachable oid uid [r]
| reach_step : forall op ok now t,
    reachable oid uid t -> reachable oid uid (out_table (run_op op ok t oid uid now)).

End Orders.

(** ** Prices ([Cart.tsx], [Checkout.tsx], [ProductDetail.tsx], [TrackOrder.tsx]) *)
Module Pricing.
Local Open Scope string_scope.

(** A JavaScript number: [NaN], an infinity or a finite value.  A finite
    double is the rational it denotes; prices and quantities read from the
    store are kept as such rationals, and the arithmetic of [lineTotal] is
    exact on them (the rounding of a double product is not modelled). *)
Inductive num :=
| NaN
| Inf (neg : bool)
| Fin (q : Q).

Definition num_truthy (n : num) : bool :=
  match n with
  | NaN => false
  | Inf _ => true
  | Fin q => negb (Qeq_bool q 0)
  end.

(** The number a double denotes: [m * 2^e]. *)
Definition dbl_to_num (x : Json.double) : num :=
  match x with
  | Json.DNaN => NaN
  | Json.DInf neg => Inf neg
  | Json.DFin m e =>
      Fin (if (0 <=? e)%Z then inject_Z (m * 2 ^ e) else Qmake m (Z.to_pos (2 ^ (- e))))
  end.

(** [a || b] on numbers *)
Definition num_or (a b : num) : num := if num_truthy a then a else b.

(** [{ min_quantity, price }] *)
Record Tier := mkTier {
  min_quantity : Z;
  tier_price : Q
}.

(** The fields of [CartItem] the price helpers read. *)
Record CartItem := mkCartItem {
  price : Q;
  quantity : Z;
  pricing_tiers : option (list Tier)
}.

(** [getUnitPrice] (Cart.tsx lines 29-35, Checkout.tsx lines 67-73). *)
Definition getUnitPrice (item : CartItem) : Q :=
  match item.(pricing_tiers) with
  | None | Some [] => item.(price)
  | Some tiers =>
      match find (fun t => Z.leb t.(min_quantity) item.(quantity)) tiers with
      | Some t => t.(tier_price)
      | None => item.(price)
      end
  end.

Definition lineTotal (item : CartItem) : Q := getUnitPrice item * inject_Z item.(quantity).

(** [s.replace(pat, '')]: the first occurrence of [pat] is removed. *)
Fixpoint remove_first (pat s : string) : string :=
  match Json.strip_prefix pat s with
  | Some r => r
  | None =>
      match s with
      | EmptyString => EmptyString
      | String c r => String c (remove_first pat r)
      end
  end.

(** [s.replace(/[^\d.]/g, '')] *)
Fixpoint keep_digits_dots (s : string) : string :=
  match s with
  | EmptyString => EmptyString
  | String c r =>
      if Json.is_digit c || Ascii.eqb c "."%char then String c (keep_digits_dots r)
      else keep_digits_dots r
  end.

Fixpoint span_digits (s : string) : list nat * string :=
  match s with
  | String c r =>
      if Json.is_digit c then
        let '(ds, r') := span_digits r in ((nat_of_ascii c - 48)%nat :: ds, r')
      else ([], s)
  | EmptyString => ([], EmptyString)
  end.

(** [parseFloat] on the argument it receives here, a string of digits and
    dots: the longest prefix [digits [. digits]] (or [. digits]) is read
    and rounded to the nearest double (so a long enough digit string gives
    [Infinity]); no digit at all gives [NaN]. *)
Definition parseFloat (s : string) : num :=
  let '(ip, r) := span_digits s in
  let fp := match r with
            | String c r' => if Ascii.eqb c "."%char then fst (span_digits r') else []
            | EmptyString => []
            end in
  match ip, fp with
  | [], [] => NaN
  | _, _ => dbl_to_num (Json.dec_to_double false (Json.digits_value (ip ++ fp))
                                          (- Z.of_nat (List.length fp)))
  end.

(** The argument of [parsePriceToNumber]: [number | string | undefined]. *)
Inductive RawPrice :=
| PUndef
| PNull
| PNum (n : num)
| PStr (s : string).

(** [parsePriceToNumber] (ProductDetail.tsx lines 64-71). *)
Definition parsePriceToNumber (raw : RawPrice) : num :=
  match raw with
  | PUndef | PNull => Fin 0
  | PNum n => n
  | PStr s => num_or (parseFloat (keep_digits_dots (remove_first "KES " s))) (Fin 0)
  end.

(** [typeof p === 'string' ? parseFloat(p.replace(/[^\d.]/g, '')) : (p as number) || dflt] *)
Definition price_or (p : RawPrice) (dflt : num) : num :=
  match p with
  | PStr s => parseFloat (keep_digits_dots s)
  | PNum n => num_or n dflt
  | PUndef | PNull => dflt
  end.

(** The price of an order line in [queryFn] (TrackOrder.tsx lines 114-121):
    the product price, replaced by the variant price when the line has a
    variant. *)
Definition enrichItemPrice (product_price : RawPrice) (variant_price : option RawPrice) : num :=
  let itemPrice := price_or product_price (Fin 0) in
  match variant_price with
  | Some vp => price_or vp itemPrice
  | None => itemPrice
  end.

End Pricing.

(** ** Example data: an order placed at checkout *)
Module Examples.
Import Json Orders.
Local Open Scope string_scope.

Definition ex_created_at : string := "2026-01-01T08:00:00Z".

Definition ex_delivery : DeliveryInfo := mkDeliveryInfo "12 Moi Avenue, Nairobi" "Call on arrival".

(** The row [handlePlaceOrder] inserts for user [u1]; [o1] is the id the
    database assigns. *)
Definition ex_row : Row :=
  mkRow "o1" "u1" (JStr "Order Placed (Making Order)")
        (JSON_stringify (deliveryStages ex_delivery)) ex_created_at.

Definition ex_table : Table := [ex_row].

(** The order the tracking page loads from [ex_table] for its owner. *)
Definition ex_order : Order :=
  mkOrder "o1" "u1" (JStr "Order Placed (Making Order)") (default_stages ex_created_at)
          ex_created_at (JStr ex_delivery.(address)) (JStr ex_delivery.(instructions)).

(** A stored order in the page's own stage format whose workflow has five
    stages and ends with Delivered, as an earlier workflow wrote it: the
    parser reads any stored array of stage records (lines 152-166). *)
Definition legacy_stages : list Stage :=
  [ mkStage (JStr "Order Placed") (JStr ex_created_at) true;
    mkStage (JStr "Payment Pending") (JStr EmptyString) false;
    mkStage (JStr "Processing") (JStr EmptyString) false;
    mkStage (JStr "Shipped") (JStr EmptyString) false;
    mkStage (JStr "Delivered") (JStr EmptyString) false ].

Definition legacy_row : Row :=
  mkRow "o3" "u1" (JStr "Order Placed") (stages_text legacy_stages) ex_created_at.

Definition legacy_table : Table := [legacy_row].

End Examples.

(** ** The rest of the tracking page: items, timeline and action buttons *)
Module TrackPage.
Import Json Orders.
Local Open Scope string_scope.
Local Open Scope nat_scope.

(** [String(v)], which [JSON.parse] applies to an argument that is not a
    string: an array is joined with [','] (its [null] and [undefined]
    elements give the empty string) and every object gives
    ['[object Object]']. *)
Fixpoint js_to_string (v : jsval) : string :=
  match v with
  | JUndef => "undefined"
  | JNull => "null"
  | JBool b => if b then "true" else "false"
  | JNum n => number_to_string n
  | JStr s => s
  | JArr l => join (map (fun x => match x with
                                  | JUndef | JNull => EmptyString
                                  | _ => js_to_string x
                                  end) l)
  | JObj _ => "[object Object]"
  end.

(** The items block of [queryFn] (lines 97-105):
    [parsedItems = JSON.parse(data.items || '[]')], the [catch] giving [[]].
    [items] is the [jsonb] column as the client receives it (a decoded
    value).  [None] is the [TypeError] of [parsedItems.map] (line 109)
    when the decoded value is not an array. *)
Definition parse_items (items : jsval) : option (list jsval) :=
  match JSON_parse (js_to_string (js_or items (JStr "[]"))) with
  | None => Some []
  | Some (JArr l) => Some l
  | Some _ => None
  end.

(** [isCurrent] of the timeline entry [idx] (line 377):
    [!stage.completed && idx === order.stages.findIndex(s => !s.completed)]. *)
Definition is_current (ss : list Stage) (idx : nat) : bool :=
  match nth_error ss idx with
  | Some s =>
      negb s.(completed) &&
      match find_incomplete ss with
      | Some j => Nat.eqb idx j
      | None => false
      end
  | None => false
  end.

(** The Mark as Done button of the timeline entry [idx] (lines 395-403),
    rendered when [isCurrent && stage.name === 'Confirmed Received'];
    its [onClick] is [advanceStage]. *)
Definition mark_done_shown (ss : list Stage) (idx : nat) : bool :=
  match nth_error ss idx with
  | Some s => is_current ss idx && strict_eq s.(name) (JStr "Confirmed Received")
  | None => false
  end.

(** The condition of the Confirm Received button as the render evaluates
    it (line 414); [None] is the [TypeError] of
    [order.stages[order.stages.length - 1].name] on an empty list. *)
Definition confirm_gate (o : Order) : option bool :=
  match last_opt o.(o_stages) with
  | None => None
  | Some l => Some (strict_eq l.(name) (JStr "Delivered") && negb l.(completed))
  end.





(** The stage names of the workflow the tracking page builds. *)
Definition workflow_names : list jsval :=
  [JStr "Order Placed"; JStr "Payment Pending"; JStr "Processing";
   JStr "Shipped"; JStr "Delivered"; JStr "Confirmed Received"].

End TrackPage.

(** ** [String.prototype.trim] *)
Module JsText.
Local Open Scope string_scope.
Local Open Scope nat_scope.

Definition bytes (l : list nat) : string := string_of_list_ascii (map ascii_of_nat l).

(** The code units [trim] removes (WhiteSpace and LineTerminator of
    ECMA-262), as their bytes: tab, line feed, vertical tab, form feed,
    carriage return, space, U+00A0, U+1680, U+2000 to U+200A, U+2028,
    U+2029, U+202F, U+205F, U+3000 and U+FEFF. *)
Definition ws_seqs : list string :=
  map (fun n => bytes [n]) [9; 10; 11; 12; 13; 32]
  ++ [bytes [194; 160]; bytes [225; 154; 128]]
  ++ map (fun n => bytes [226; 128; n]) [128; 129; 130; 131; 132; 133; 134; 135; 136; 137; 138]
  ++ [bytes [226; 128; 168]; bytes [226; 128; 169]; bytes [226; 128; 175];
      bytes [226; 129; 159]; bytes [227; 128; 128]; bytes [239; 187; 191]].

(** The rest of [s] after a leading white-space code unit. *)
Fixpoint ws_prefix_in (ps : list string) (s : string) : option string :=
  match ps with
  | [] => None
  | p :: ps' =>
      match Json.strip_prefix p s with
      | Some r => Some r
      | None => ws_prefix_in ps' s
      end
  end.

Definition ws_prefix (s : string) : option string := ws_prefix_in ws_seqs s.

Fixpoint trim_start_f (fuel : nat) (s : string) : string :=
  match fuel with
  | O => s
  | S f =>
      match ws_prefix s with
      | Some r => trim_start_f f r
      | None => s
      end
  end.

(** [s] without its leading white space. *)
Definition trim_start (s : string) : string := trim_start_f (String.length s) s.

(** [s] is white space only. *)
Definition is_ws_text (s : string) : bool := String.eqb (trim_start s) EmptyString.

(** [s] without its trailing white space: cut at the first position from
    which only white space follows. *)
Fixpoint trim_end (s : string) : string :=
  match s with
  | String c r => if is_ws_text s then EmptyString else String c (trim_end r)
  | EmptyString => EmptyString
  end.

Definition trim (s : string) : string := trim_end (trim_start s).

(** [s.includes(pat)] *)
Fixpoint includes (s pat : string) : bool :=
  match Json.strip_prefix pat s with
  | Some _ => true
  | None =>
      match s with
      | EmptyString => false
      | String _ r => includes r pat
      end
  end.

End JsText.

(** ** The cart store ([cartReducer] and [CartProvider], contexts/AuthContext.tsx)

    Quantities are integers, as every caller passes them. *)
Module CartStore.
Import Pricing.
Local Open Scope string_scope.
Local Open Scope Z_scope.

(** [interface CartItem] of the store (lines 97-110); [imageUrl] is left
    out, nothing modelled here reads it. *)
Record CartLine := mkCartLine {
  cl_id : string;
  cl_name : string;
  cl_price : num;
  cl_quantity : Z;
  cl_pricing_tiers : option (list (Z * num));
  cl_size : option string;
  cl_variant_id : option string
}.

(** [type CartAction] *)
Inductive CartAction :=
| ADD_ITEM (payload : CartLine)
| UPDATE_QUANTITY (id : string) (quantity : Z)
| REMOVE_ITEM (id : string)
| CLEAR_CART.

(** [{ ...item, quantity: q }] *)
Definition with_quantity (i : CartLine) (q : Z) : CartLine :=
  mkCartLine i.(cl_id) i.(cl_name) i.(cl_price) q i.(cl_pricing_tiers) i.(cl_size) i.(cl_variant_id).

(** [cartReducer] (lines 119-144) *)
Definition cartReducer (state : list CartLine) (action : CartAction) : list CartLine :=
  match action with
  | ADD_ITEM p =>
      match find (fun i => String.eqb i.(cl_id) p.(cl_id)) state with
      | Some _ =>
          map (fun i => if String.eqb i.(cl_id) p.(cl_id)
                        then with_quantity i (i.(cl_quantity) + p.(cl_quantity))
                        else i) state
      | None => state ++ [p]
      end
  | UPDATE_QUANTITY id q =>
      filter (fun i => 0 <? i.(cl_quantity))
        (map (fun i => if String.eqb i.(cl_id) id then with_quantity i (Z.max 1 q) else i) state)
  | REMOVE_ITEM id => filter (fun i => negb (String.eqb i.(cl_id) id)) state
  | CLEAR_CART => []
  end.

(** [totalItems] (line 212) *)
Definition totalItems (cart : list CartLine) : Z :=
  fold_left (fun sum i => sum + i.(cl_quantity)) cart 0.

End CartStore.

(** ** The product page ([src/pages/ProductDetail.tsx]) *)
Module ProductPage.
Import Json Pricing CartStore JsText.
Local Open Scope string_scope.
Local Open Scope Z_scope.

(** [formatPriceForDisplay] (lines 54-61) on a price that is not a
    number: [None] is [undefined] or [null]. *)
Definition formatPriceForDisplay (rawPrice : option string) : string :=
  match rawPrice with
  | None => "KES ___"
  | Some s => if includes s "KES" then s else "KES " ++ s
  end.

(** [interface Product], the fields the page reads when adding to the cart. *)
Record Product := mkProduct {
  pr_id : string;
  pr_name : string;
  pr_price : RawPrice;
  pr_pricing_tiers : option (list (Z * RawPrice))
}.

(** [interface ProductVariant] ([stock] is only displayed) *)
Record ProductVariant := mkVariant {
  v_id : string;
  v_size : string;
  v_price : RawPrice
}.

(** The page's [selectedSize], [selectedVariantId] and [quantity]. *)
Record Selection := mkSelection {
  selectedSize : string;
  selectedVariantId : string;
  sel_quantity : Z
}.

Definition initial_selection : Selection := mkSelection EmptyString EmptyString 1.

(** [onChange] of the size selector (lines 284-289) *)
Definition onSizeChange (variants : list ProductVariant) (size : string) (st : Selection)
  : Selection :=
  mkSelection size
    (match find (fun v => String.eqb v.(v_size) size) variants with
     | Some v => v.(v_id)
     | None => st.(selectedVariantId)
     end)
    st.(sel_quantity).

(** [handleQuantityChange] (lines 142-144) *)
Definition handleQuantityChange (delta : Z) (st : Selection) : Selection :=
  mkSelection st.(selectedSize) st.(selectedVariantId) (Z.max 1 (st.(sel_quantity) + delta)).

(** What the user does on the selection controls: a choice in the size
    selector or a click on one of the quantity buttons. *)
Inductive SelectionEvent :=
| ChooseSize (size : string)
| ClickQuantity (delta : Z).

Definition on_event (variants : list ProductVariant) (st : Selection) (ev : SelectionEvent)
  : Selection :=
  match ev with
  | ChooseSize size => onSizeChange variants size st
  | ClickQuantity delta => handleQuantityChange delta st
  end.

(** The selection after a sequence of events from the initial state. *)
Definition run_events (variants : list ProductVariant) (evs : list SelectionEvent) : Selection :=
  fold_left (on_event variants) evs initial_selection.

(** [variants.find(v => v.id === id)] *)
Definition find_variant (variants : list ProductVariant) (id : string) : option ProductVariant :=
  find (fun v => String.eqb v.(v_id) id) variants.

(** [getNumericPriceForCart] (lines 160-169) *)
Definition getNumericPriceForCart (product : option Product) (variants : list ProductVariant)
    (selectedVariantId : string) : num :=
  let rawPrice :=
    if String.eqb selectedVariantId EmptyString then
      match product with Some p => p.(pr_price) | None => PUndef end
    else
      match find_variant variants selectedVariantId with
      | Some v => v.(v_price)
      | None => PUndef
      end in
  parsePriceToNumber rawPrice.

(** [handleAddToCart] (lines 171-193): the item passed to [addItem], if any. *)
Definition handleAddToCart (product : option Product) (variants : list ProductVariant)
    (st : Selection) : option CartLine :=
  match product with
  | Some p =>
      if String.eqb st.(selectedVariantId) EmptyString then None
      else
        match find_variant variants st.(selectedVariantId) with
        | Some v =>
            Some (mkCartLine p.(pr_id) (p.(pr_name) ++ " - " ++ v.(v_size))
                    (getNumericPriceForCart product variants st.(selectedVariantId))
                    st.(sel_quantity)
                    (option_map (map (fun t => (fst t, parsePriceToNumber (snd t))))
                       p.(pr_pricing_tiers))
                    (Some v.(v_size)) (Some v.(v_id)))
        | None => None
        end
  | None => None
  end.

(** [newReview] *)
Record ReviewForm := mkReviewForm {
  comment : string;
  rating : Z
}.

(** A row inserted into the [reviews] table. *)
Record ReviewRow := mkReviewRow {
  rv_product_id : string;
  rv_user_id : string;
  rv_comment : string;
  rv_rating : Z
}.

(** The page's [newReview] and [reviewError], and the [reviews] table. *)
Record ReviewState := mkReviewState {
  newReview : ReviewForm;
  reviewError : string;
  reviews : list ReviewRow
}.

(** [addReviewMutation.mutate(reviewData)]: [mutationFn] (lines 120-131)
    with [onSuccess] and [onError] (lines 132-139).  [user] is [user?.id],
    [id] the route's product id and [insert_error] the error of the insert
    ([None] when it succeeds, [Some m] with its message [m]). *)
Definition mutate (user : option string) (id : string) (insert_error : option string)
    (reviewData : ReviewForm) (st : ReviewState) : ReviewState :=
  match user with
  | None => mkReviewState st.(newReview) "Must be signed in" st.(reviews)
  | Some uid =>
      match insert_error with
      | None =>
          mkReviewState (mkReviewForm EmptyString 5) EmptyString
            (st.(reviews) ++ [mkReviewRow id uid reviewData.(comment) reviewData.(rating)])
      | Some msg =>
          mkReviewState st.(newReview)
            (if String.eqb msg EmptyString then "Failed to add review." else msg) st.(reviews)
      end
  end.

(** [handleAddReview] (lines 195-206) *)
Definition handleAddReview (session : bool) (user : option string) (id : string)
    (insert_error : option string) (st : ReviewState) : ReviewState :=
  if negb session then mkReviewState st.(newReview) "Please sign in to add a review." st.(reviews)
  else if String.eqb (trim st.(newReview).(comment)) EmptyString then
    mkReviewState st.(newReview) "Comment cannot be empty." st.(reviews)
  else mutate user id insert_error st.(newReview) st.

End ProductPage.

(** ** The rest of the checkout page ([src/pages/Checkout.tsx]) *)
Module CheckoutPage.
Import Json Orders CartStore JsText.
Local Open Scope string_scope.

(** [interface SavedAddress] *)
Record SavedAddress := mkSavedAddress {
  sa_id : string;
  label : string;
  fullAddress : string;
  isDefault : bool
}.

(** The page's [deliveryInfo] and [selectedAddressId]. *)
Record CheckoutForm := mkCheckoutForm {
  deliveryInfo : DeliveryInfo;
  selectedAddressId : string
}.

(** The auto-fill effect (lines 56-64) *)
Definition autofill (savedAddresses : list SavedAddress) (f : CheckoutForm) : CheckoutForm :=
  if (0 <? List.length savedAddresses)%nat && String.eqb f.(deliveryInfo).(address) EmptyString then
    match find (fun a => a.(isDefault)) savedAddresses with
    | Some a => mkCheckoutForm (mkDeliveryInfo a.(fullAddress) f.(deliveryInfo).(instructions)) a.(sa_id)
    | None => f
    end
  else f.

(** [handleInputChange] (lines 79-82): [{ ...prev, [name]: value }]; a
    field name other than these two adds a property nothing reads. *)
Definition handleInputChange (fieldName value : string) (f : CheckoutForm) : CheckoutForm :=
  let d := f.(deliveryInfo) in
  if String.eqb fieldName "address" then
    mkCheckoutForm (mkDeliveryInfo value d.(instructions)) f.(selectedAddressId)
  else if String.eqb fieldName "instructions" then
    mkCheckoutForm (mkDeliveryInfo d.(address) value) f.(selectedAddressId)
  else f.

(** [handleAddressSelect] (lines 84-91) *)
Definition handleAddressSelect (savedAddresses : list SavedAddress) (id : string)
    (f : CheckoutForm) : CheckoutForm :=
  match find (fun a => String.eqb a.(sa_id) id) savedAddresses with
  | Some a => mkCheckoutForm (mkDeliveryInfo a.(fullAddress) f.(deliveryInfo).(instructions)) id
  | None => mkCheckoutForm f.(deliveryInfo) id
  end.

(** [orderItems] (lines 127-132) as the [jsonb] column holds it: the
    request body is JSON, so a member whose value is [undefined] is not
    stored. *)
Definition opt_member (k : string) (v : option string) : list (string * jsval) :=
  match v with
  | Some s => [(k, JStr s)]
  | None => []
  end.

Definition orderItems (cart : list CartLine) : jsval :=
  JArr (map (fun item =>
               JObj ([("product_id", JStr item.(cl_id))] ++ opt_member "variant_id" item.(cl_variant_id)
                     ++ opt_member "size" item.(cl_size) ++ [("quantity", JNum (DFin item.(cl_quantity) 0))]))
            cart).

(** What one click on Place Order does. *)
Record PlaceResult := mkPlaceResult {
  signUpCall : option (string * string);  (* [signUp(email, password)] *)
  insertedOrder : option Row;
  clearedCart : bool
}.

(** [handlePlaceOrder] (lines 114-168).  [session] is the signed-in user's
    id as the render that created the handler saw it; [user] is
    [session?.user] of the same render (AuthContext.tsx line 73).
    [email] and [password] are the answers to the prompts ([None] when
    cancelled), [signUp_ok] whether the account creation succeeds and
    [insert_ok] whether the order insert succeeds. *)
Definition handlePlaceOrder (session email password : option string) (signUp_ok insert_ok : bool)
    (d : DeliveryInfo) (new_id created_at : string) : PlaceResult :=
  let user := session in
  let proceed (call : option (string * string)) :=
    match placeOrderRow user d new_id created_at with
    | Some r => if insert_ok then mkPlaceResult call (Some r) true else mkPlaceResult call None false
    | None => mkPlaceResult call None false
    end in
  match session with
  | Some _ => proceed None
  | None =>
      match email, password with
      | Some e, Some p =>
          if negb (String.eqb e EmptyString) && negb (String.eqb p EmptyString) then
            if signUp_ok then proceed (Some (e, p)) else mkPlaceResult (Some (e, p)) None false
          else mkPlaceResult None None false
      | _, _ => mkPlaceResult None None false
      end
  end.

End CheckoutPage.

(** ** Facts about the JSON codec: decode after encode is the identity on
    values without numbers and without [undefined]. *)
Module JsonFacts.
Import Json.
Local Open Scope string_scope.
Local Open Scope nat_scope.

Lemma append_assoc_s (a b c : string) : (a ++ b) ++ c = a ++ (b ++ c).
Proof. induction a as [|x a IH]; simpl; [reflexivity | now rewrite IH]. Qed.

Lemma append_nil_s (a : string) : a ++ EmptyString = a.
Proof. induction a as [|x a IH]; simpl; [reflexivity | now rewrite IH]. Qed.

Lemma parse_str_esc_char (c : ascii) (t : string) :
  parse_str (esc_char c ++ t) = cons_res c (parse_str t).
Proof.
  destruct c as [[] [] [] [] [] [] [] []]; reflexivity.
Qed.

(** A byte of a multi-byte code unit is read as itself. *)
Lemma parse_str_high (c : ascii) (t : string) :
  128 <= nat_of_ascii c -> parse_str (String c t) = cons_res c (parse_str t).
Proof.
  intros H; destruct c as [[] [] [] [] [] [] [] []];
    try (vm_compute in H; lia); reflexivity.
Qed.

Lemma hex_val_digit (n : N) : (n < 16)%N -> hex_val (hex_digit n) = Some n.
Proof.
  intros H; rewrite <- (N2Nat.id n); assert (Hk : N.to_nat n < 16) by lia.
  generalize (N.to_nat n) Hk; clear n H Hk; intros k Hk.
  do 16 (destruct k as [|k]; [reflexivity|]); lia.
Qed.

Lemma hex4_esc_unit (u : N) : (u < 65536)%N ->
  hex4 (hex_digit (u / 4096)) (hex_digit ((u mod 4096) / 256))
       (hex_digit (((u mod 4096) mod 256) / 16)) (hex_digit (((u mod 4096) mod 256) mod 16))
  = Some u.
Proof.
  intros H; unfold hex4.
  pose proof (N.div_mod u 4096 ltac:(lia)).
  pose proof (N.mod_lt u 4096 ltac:(lia)).
  set (r1 := (u mod 4096)%N) in *; clearbody r1.
  pose proof (N.div_mod r1 256 ltac:(lia)).
  pose proof (N.mod_lt r1 256 ltac:(lia)).
  set (r2 := (r1 mod 256)%N) in *; clearbody r2.
  pose proof (N.div_mod r2 16 ltac:(lia)).
  pose proof (N.mod_lt r2 16 ltac:(lia)).
  set (q1 := (u / 4096)%N) in *; clearbody q1.
  set (q2 := (r1 / 256)%N) in *; clearbody q2.
  set (q3 := (r2 / 16)%N) in *; clearbody q3.
  set (q4 := (r2 mod 16)%N) in *; clearbody q4.
  rewrite !hex_val_digit by lia.
  f_equal; lia.
Qed.

Lemma parse_str_hex4 (h1 h2 h3 h4 : ascii) (u : N) (t : string) :
  hex4 h1 h2 h3 h4 = Some u ->
  parse_str (String ch_bslash (String "u"%char (String h1 (String h2 (String h3 (String h4 t))))))
  = app_res (cesu_bytes u) (parse_str t).
Proof. intros H; cbn -[hex4 cesu_bytes]; now rewrite H. Qed.

Lemma parse_str_esc_unit (u : N) (t : string) : (u < 65536)%N ->
  parse_str (esc_unit u ++ t) = app_res (cesu_bytes u) (parse_str t).
Proof. intros H; apply parse_str_hex4, hex4_esc_unit, H. Qed.

(** The three bytes of a surrogate are its code unit written back. *)
Lemma surrogate_unit_bytes (c1 c2 c3 : ascii) (u : N) :
  surrogate_unit c1 c2 c3 = Some u ->
  cesu_bytes u = String c1 (String c2 (String c3 EmptyString)) /\ (u < 65536)%N
  /\ 128 <= nat_of_ascii c1 /\ 128 <= nat_of_ascii c2 /\ 128 <= nat_of_ascii c3.
Proof.
  unfold surrogate_unit, is_cont.
  destruct (_ && _ && _ && _) eqn:E; intros Hu; [|discriminate].
  assert (Hu' : (53248 + 64 * (N_of_ascii c2 - 128) + (N_of_ascii c3 - 128))%N = u) by congruence.
  subst u; clear Hu.
  repeat rewrite Bool.andb_true_iff in E.
  destruct E as [[[E1 E2] E3] [E4 E5]].
  apply Nat.eqb_eq in E1; apply Nat.leb_le in E2, E4; apply Nat.ltb_lt in E3, E5.
  unfold nat_of_ascii in *.
  set (a := (N_of_ascii c2 - 128)%N); set (b := (N_of_ascii c3 - 128)%N).
  assert (Ha : (32 <= a < 64)%N) by (unfold a; lia).
  assert (Hb : (b < 64)%N) by (unfold b; lia).
  assert (Ea : N_of_ascii c2 = (128 + a)%N) by (unfold a; lia).
  assert (Eb : N_of_ascii c3 = (128 + b)%N) by (unfold b; lia).
  assert (Ec : N_of_ascii c1 = 237%N) by lia.
  clearbody a b; clear E1 E2 E3 E4 E5.
  assert (D1 : ((53248 + 64 * a + b) / 4096 = 13)%N)
    by (symmetry; apply (N.div_unique _ _ _ (64 * a + b)); lia).
  assert (D2 : ((53248 + 64 * a + b) / 64 = 832 + a)%N)
    by (symmetry; apply (N.div_unique _ _ _ b); lia).
  assert (D3 : ((832 + a) mod 64 = a)%N)
    by (symmetry; apply (N.mod_unique _ _ 13); lia).
  assert (D4 : ((53248 + 64 * a + b) mod 64 = b)%N)
    by (symmetry; apply (N.mod_unique _ _ (832 + a)); lia).
  unfold cesu_bytes.
  destruct (N.ltb_spec (53248 + 64 * a + b) 128); [lia|].
  destruct (N.ltb_spec (53248 + 64 * a + b) 2048); [lia|].
  rewrite D1, D2, D3, D4.
  replace (224 + 13)%N with (N_of_ascii c1) by lia.
  replace (128 + a)%N with (N_of_ascii c2) by lia.
  replace (128 + b)%N with (N_of_ascii c3) by lia.
  rewrite !ascii_N_embedding. repeat split; lia.
Qed.

Lemma parse_str_esc_from (n : nat) : forall (b : bool) (s rest : string), String.length s <= n ->
  parse_str (esc_from b s ++ String ch_quote rest) = Some (s, rest).
Proof.
  induction n as [|n IH]; intros b s rest Hl.
  - destruct s; [reflexivity | simpl in Hl; lia].
  - destruct s as [|c1 s1]; [reflexivity|].
    assert (Def : parse_str ((esc_char c1 ++ esc_from false s1) ++ String ch_quote rest)
                  = Some (String c1 s1, rest)).
    { rewrite append_assoc_s, parse_str_esc_char, IH by (simpl in Hl; lia). reflexivity. }
    destruct s1 as [|c2 [|c3 r]]; [exact Def | exact Def |].
    cbn [esc_from].
    destruct (surrogate_unit c1 c2 c3) as [u|] eqn:Es; [|exact Def].
    destruct (surrogate_unit_bytes c1 c2 c3 u Es) as (Hb & Hu & H1 & H2 & H3).
    simpl in Hl.
    assert (Raw : forall b', parse_str (String c1 (String c2 (String c3 (esc_from b' r))) ++ String ch_quote rest)
                             = Some (String c1 (String c2 (String c3 r)), rest)).
    { intros b'; cbn [append]. rewrite !parse_str_high by assumption.
      rewrite IH by lia. reflexivity. }
    assert (Esc : parse_str ((esc_unit u ++ esc_from false r) ++ String ch_quote rest)
                  = Some (String c1 (String c2 (String c3 r)), rest)).
    { rewrite append_assoc_s, parse_str_esc_unit, IH, Hb by lia. reflexivity. }
    destruct (u <? 56320)%N; [destruct (starts_low r) | destruct b]; auto.
Qed.

Lemma parse_str_esc (s rest : string) :
  parse_str (esc s ++ String ch_quote rest) = Some (s, rest).
Proof. apply (parse_str_esc_from (String.length s)); lia. Qed.

Local Ltac norm_app := repeat first [rewrite append_assoc_s | progress (cbn [append])].

Lemma length_append_s (a b : string) : String.length (a ++ b) = String.length a + String.length b.
Proof. induction a as [|x a IH]; simpl; [reflexivity | now rewrite IH]. Qed.

(** Every encoded value without numbers starts with a character that is
    neither white space nor a closing bracket or a comma. *)
Lemma ser_head (v : jsval) : plain v = true ->
  exists c t, ser v = String c t /\ is_ws c = false
    /\ Ascii.eqb c "]"%char = false /\ Ascii.eqb c "}"%char = false.
Proof.
  destruct v as [| |[]|n|s|l|m]; simpl; intros H; try discriminate;
    refine (ex_intro _ _ (ex_intro _ _ (conj eq_refl _))); repeat split.
Qed.

Lemma skip_ws_ser (v : jsval) (rest : string) : plain v = true ->
  skip_ws (ser v ++ rest) = ser v ++ rest.
Proof.
  intros H; destruct (ser_head v H) as (c & t & E & W & _).
  rewrite E; simpl; now rewrite W.
Qed.

Lemma ser_obj (m : list (string * jsval)) :
  forallb (fun '(_, x) => plain x) m = true ->
  ser (JObj m) = "{" ++ join (map member_text m) ++ "}".
Proof.
  intros H.
  change (ser (JObj m)) with
    ("{" ++ join (flat_map (fun '(k, x) =>
                     match x with
                     | JUndef => []
                     | _ => [ser_str k ++ ":" ++ ser x]
                     end) m) ++ "}").
  do 3 f_equal.
  induction m as [|[k x] m IH]; simpl in *; [reflexivity|].
  apply andb_prop in H as [Hx Hm].
  rewrite <- IH by exact Hm.
  destruct x; simpl in Hx; try discriminate; reflexivity.
Qed.

Lemma parse_elems_ser (l : list jsval) :
  Forall parses_back l -> forallb plain l = true -> l <> [] ->
  forall f rest, list_sum (map (fun x => 2 + jsize x) l) <= f ->
  parse_elems f (join (map ser l) ++ String "]"%char rest) = Some (l, rest).
Proof.
  induction l as [|x l IH]; intros HF Hp Hne f rest Hf; [congruence|].
  inversion HF as [|? ? Hx HF']; subst.
  simpl in Hp; apply andb_prop in Hp as [Hpx Hpl].
  simpl in Hf; destruct f as [|f]; [lia|].
  destruct l as [|y l].
  - simpl. rewrite (Hx Hpx f (String "]"%char rest)) by lia. reflexivity.
  - change (join (map ser (x :: y :: l))) with (ser x ++ "," ++ join (map ser (y :: l))).
    remember (join (map ser (y :: l))) as J eqn:EJ.
    rewrite !append_assoc_s; simpl.
    rewrite (Hx Hpx f _) by lia; simpl.
    rewrite (IH HF' Hpl ltac:(discriminate) f rest) by (simpl in *; lia).
    reflexivity.
Qed.

Lemma parse_members_ser (m : list (string * jsval)) :
  Forall (fun kv => parses_back (snd kv)) m -> forallb (fun '(_, x) => plain x) m = true ->
  m <> [] ->
  forall f rest, list_sum (map (fun '(_, x) => 2 + jsize x) m) <= f ->
  parse_members f (join (map member_text m) ++ String "}"%char rest) = Some (m, rest).
Proof.
  induction m as [|[k x] m IH]; intros HF Hp Hne f rest Hf; [congruence|].
  inversion HF as [|? ? Hx HF']; subst; simpl in Hx.
  simpl in Hp; apply andb_prop in Hp as [Hpx Hpm].
  simpl in Hf; destruct f as [|f]; [lia|].
  destruct m as [|kv m].
  - simpl join; unfold member_text, ser_str.
    norm_app. simpl.
    rewrite parse_str_esc; simpl.
    rewrite (Hx Hpx f (String "}"%char rest)) by lia. reflexivity.
  - change (join (map member_text ((k, x) :: kv :: m)))
      with (member_text (k, x) ++ "," ++ join (map member_text (kv :: m))).
    remember (join (map member_text (kv :: m))) as J eqn:EJ.
    unfold member_text, ser_str.
    norm_app. simpl.
    rewrite parse_str_esc; simpl.
    rewrite (Hx Hpx f _) by lia; simpl.
    rewrite (IH HF' Hpm ltac:(discriminate) f rest) by (simpl in *; lia).
    reflexivity.
Qed.

Lemma join_head (a : string) (r : list string) (z : string) :
  exists t, join (a :: r) ++ z = a ++ t.
Proof.
  destruct r as [|b r].
  - exists z; reflexivity.
  - exists ("," ++ join (b :: r) ++ z). change (join (a :: b :: r)) with (a ++ "," ++ join (b :: r)).
    now rewrite !append_assoc_s.
Qed.

Lemma parse_ser (v : jsval) : parses_back v.
Proof.
  induction v as [| |b|n|s|l IH|m IH] using jsval_rect'; unfold parses_back;
    intros Hp f rest Hf; try discriminate; destruct f as [|f]; try lia.
  - reflexivity.
  - destruct b; reflexivity.
  - unfold ser, ser_str; norm_app; simpl. now rewrite parse_str_esc.
  - destruct l as [|x l]; [reflexivity|].
    inversion IH as [|? ? IHx IHl]; subst.
    pose proof Hp as Hp'; simpl in Hp'; apply andb_prop in Hp' as [Hpx Hpl].
    assert (EP : parse_elems f (join (map ser (x :: l)) ++ String "]"%char rest) = Some (x :: l, rest)).
    { apply parse_elems_ser; [now constructor | exact Hp | discriminate | simpl in Hf |- *; lia]. }
    change (ser (JArr (x :: l))) with ("[" ++ join (map ser (x :: l)) ++ "]").
    destruct (join_head (ser x) (map ser l) (String "]"%char rest)) as [t Et].
    destruct (ser_head x Hpx) as (c & t' & E & W & R & _).
    change (join (ser x :: map ser l)) with (join (map ser (x :: l))) in Et.
    rewrite E in Et; cbn [append] in Et.
    norm_app. rewrite Et in EP |- *. simpl. rewrite W, R, EP. reflexivity.
  - destruct m as [|[k x] m]; [reflexivity|].
    inversion IH as [|? ? IHx IHm]; subst.
    assert (EP : parse_members f (join (map member_text ((k, x) :: m)) ++ String "}"%char rest)
                 = Some ((k, x) :: m, rest)).
    { apply parse_members_ser; [now constructor | exact Hp | discriminate | simpl in Hf |- *; lia]. }
    rewrite (ser_obj _ Hp).
    destruct (join_head (member_text (k, x)) (map member_text m) (String "}"%char rest)) as [t Et].
    change (join (member_text (k, x) :: map member_text m))
      with (join (map member_text ((k, x) :: m))) in Et.
    change (member_text (k, x) ++ t)
      with (String ch_quote ((esc k ++ String ch_quote EmptyString) ++ (":" ++ ser x)) ++ t) in Et.
    cbn [append] in Et.
    norm_app. rewrite Et in EP |- *. reflexivity || (simpl; rewrite EP; reflexivity).
Qed.

Lemma list_sum_cons' (a : nat) (l : list nat) : list_sum (a :: l) = a + list_sum l.
Proof. reflexivity. Qed.

Lemma join_length (xs : list string) :
  list_sum (map String.length xs) + List.length xs <= String.length (join xs) + 1.
Proof.
  induction xs as [|x xs IH]; [simpl; lia|].
  destruct xs as [|y xs]; [simpl; lia|].
  change (join (x :: y :: xs)) with (x ++ "," ++ join (y :: xs)).
  rewrite !length_append_s. simpl in *. lia.
Qed.

Lemma jsize_bound (v : jsval) : plain v = true -> jsize v <= 2 * String.length (ser v).
Proof.
  induction v as [| |b|n|s|l IH|m IH] using jsval_rect'; intros Hp; try (simpl; lia).
  - change (ser (JArr l)) with ("[" ++ join (map ser l) ++ "]").
    rewrite !length_append_s. pose proof (join_length (map ser l)) as HJ.
    simpl String.length at 1 3.
    change (jsize (JArr l)) with (list_sum (map (fun x => 2 + jsize x) l)).
    assert (list_sum (map (fun x => 2 + jsize x) l)
            <= 2 * list_sum (map String.length (map ser l)) + 2 * List.length (map ser l)).
    { clear HJ. induction l as [|x l IHl]; [simpl; lia|].
      inversion IH as [|? ? IHx IHl']; subst. simpl in Hp; apply andb_prop in Hp as [Hx Hl].
      specialize (IHx Hx). specialize (IHl IHl' Hl). simpl in *. lia. }
    lia.
  - rewrite (ser_obj m Hp).
    rewrite !length_append_s. pose proof (join_length (map member_text m)) as HJ.
    simpl String.length at 1 3.
    change (jsize (JObj m)) with (list_sum (map (fun '(_, x) => 2 + jsize x) m)).
    assert (list_sum (map (fun '(_, x) => 2 + jsize x) m)
            <= 2 * list_sum (map String.length (map member_text m)) + 2 * List.length (map member_text m)).
    { clear HJ. induction m as [|[k x] m IHm]; [simpl; lia|].
      inversion IH as [|? ? IHx IHm']; subst. simpl in Hp; apply andb_prop in Hp as [Hx Hm].
      simpl in IHx. specialize (IHx Hx). specialize (IHm IHm' Hm).
      cbn [map list_sum member_text List.length]. unfold ser_str.
      rewrite !length_append_s. simpl String.length. rewrite !list_sum_cons'. lia. }
    lia.
Qed.

(** [x.length === 1] *)
Lemma strict_eq_length_one (n : nat) :
  strict_eq (JNum (dbl_of_nat n)) (JNum (DFin 1 0)) = Nat.eqb n 1.
Proof.
  change (strict_eq (JNum (dbl_of_nat n)) (JNum (DFin 1 0))) with (Z.of_nat n * 1 =? 1)%Z.
  rewrite Z.mul_1_r; destruct (Nat.eqb_spec n 1) as [->|Hn]; [reflexivity|].
  apply Z.eqb_neq; lia.
Qed.

(** [JSON.parse(JSON.stringify(v))] gives back [v] for every value without
    numbers and without [undefined]. *)
Lemma JSON_parse_ser (v : jsval) : plain v = true -> JSON_parse (ser v) = Some v.
Proof.
  intros Hp. unfold JSON_parse.
  pose proof (parse_ser v Hp (2 * String.length (ser v) + 2) EmptyString) as P.
  rewrite append_nil_s in P. rewrite P; [reflexivity|].
  pose proof (jsize_bound v Hp). lia.
Qed.

End JsonFacts.

(** ** Facts about stage lists, the stage parser and the transitions *)
Module OrderFacts.
Import Json Orders.
Local Open Scope string_scope.
Local Open Scope nat_scope.
Local Open Scope list_scope.

Lemma js_or_str_empty (s : string) : js_or (JStr s) (JStr EmptyString) = JStr s.
Proof. destruct s; reflexivity. Qed.

Lemma ts_ok_cases (t : jsval) : ts_ok t = true -> truthy t = true \/ t = JStr EmptyString.
Proof. destruct t as [| | | |[|c s]| |]; simpl; auto. Qed.

Lemma js_or_ts_ok (t : jsval) : ts_ok t = true -> js_or t (JStr EmptyString) = t.
Proof.
  intros H; destruct (ts_ok_cases t H) as [Ht | ->]; unfold js_or;
    [rewrite Ht | ]; reflexivity.
Qed.

Lemma ts_ok_str (s : string) : ts_ok (JStr s) = true.
Proof. destruct s; reflexivity. Qed.

Lemma normalize_stage_json (s : Stage) :
  canonical_stage s = true -> normalize_entry (stage_json s) = Some s.
Proof.
  destruct s as [n ts c]; unfold canonical_stage; simpl.
  intros H; apply andb_prop in H as [H Hpt]; apply andb_prop in H as [H Hpn];
    apply andb_prop in H as [Hn Hts].
  change (normalize_entry (stage_json (mkStage n ts c)))
    with (Some (mkStage (js_or n (js_or JUndef (JStr "Unknown"))) (js_or ts (JStr EmptyString))
                  (truthy (JBool c)))).
  rewrite (js_or_ts_ok ts Hts); unfold js_or at 1; rewrite Hn; now destruct c.
Qed.

Lemma map_entries_stage_json (ss : list Stage) :
  forallb canonical_stage ss = true -> map_entries (map stage_json ss) = Some ss.
Proof.
  induction ss as [|s r IH]; cbn [map map_entries forallb]; [reflexivity|].
  intros H; apply andb_prop in H as [Hs Hr].
  rewrite (normalize_stage_json s Hs), (IH Hr); reflexivity.
Qed.

Lemma find_address_stage_json (ss : list Stage) : find_address (map stage_json ss) = Some None.
Proof. induction ss as [|s r IH]; simpl; [reflexivity | exact IH]. Qed.

Lemma plain_stages (ss : list Stage) :
  forallb canonical_stage ss = true -> plain (JArr (map stage_json ss)) = true.
Proof.
  induction ss as [|s r IH]; simpl; [reflexivity|].
  intros H; apply andb_prop in H as [Hs Hr]; specialize (IH Hr); simpl in IH.
  unfold canonical_stage in Hs.
  apply andb_prop in Hs as [H Hpt]; apply andb_prop in H as [_ Hpn].
  rewrite Hpn, Hpt, IH; reflexivity.
Qed.

Lemma stages_text_some (ss : list Stage) :
  stages_text ss = Some (ser (JArr (map stage_json ss))).
Proof. reflexivity. Qed.

(** A canonical stage list written by a transition is read back as it was,
    with no delivery information. *)
Lemma parse_stages_text (ss : list Stage) (created_at : string) :
  forallb canonical_stage ss = true ->
  parse_stages (stages_text ss) created_at = mkParsed ss (JStr EmptyString) (JStr EmptyString).
Proof.
  intros H.
  rewrite stages_text_some; unfold parse_stages; cbv beta iota zeta.
  change (String.eqb (ser (JArr (map stage_json ss))) EmptyString) with false.
  cbv beta iota.
  rewrite (JsonFacts.JSON_parse_ser _ (plain_stages ss H)).
  cbn [getprop].
  lazymatch goal with
  | |- context [if strict_eq ?len (JNum (DFin 1 0)) then ?a else ?b] =>
      replace (if strict_eq len (JNum (DFin 1 0)) then a else b) with (@Some (option jsval) None)
        by (simpl String.eqb; cbv iota;
            rewrite JsonFacts.strict_eq_length_one, length_map;
            destruct ss as [|s [|s2 r]]; reflexivity)
  end.
  rewrite find_address_stage_json, (map_entries_stage_json ss H); reflexivity.
Qed.

Lemma map_entries_default (created_at : string) :
  map_entries (default_entries created_at) = Some (default_stages created_at).
Proof. unfold default_entries, default_stages; cbn -[js_or]; rewrite js_or_str_empty; reflexivity. Qed.

Lemma canonical_default (created_at : string) :
  forallb canonical_stage (default_stages created_at) = true.
Proof. destruct created_at; reflexivity. Qed.

Lemma canonical_complete_at (s : Stage) (now : string) :
  canonical_stage s = true -> canonical_stage (complete_at s now) = true.
Proof.
  unfold canonical_stage; intros H.
  apply andb_prop in H as [H _]; apply andb_prop in H as [H Hpn]; apply andb_prop in H as [Hn _].
  unfold complete_at; cbn [name timestamp]; rewrite Hn, Hpn, ts_ok_str; reflexivity.
Qed.

(** A freshly placed order's stages, as checkout writes them. *)
Lemma parse_delivery_stages (d : DeliveryInfo) (created_at : string) :
  d.(address) <> EmptyString ->
  parse_stages (JSON_stringify (deliveryStages d)) created_at =
    mkParsed (default_stages created_at) (JStr d.(address)) (JStr d.(instructions)).
Proof.
  intros Ha.
  change (JSON_stringify (deliveryStages d)) with (Some (ser (deliveryStages d))).
  unfold parse_stages; cbv beta iota zeta.
  change (String.eqb (ser (deliveryStages d)) EmptyString) with false; cbv beta iota.
  rewrite (JsonFacts.JSON_parse_ser (deliveryStages d) eq_refl).
  unfold prop_or_empty; cbn -[js_or map_entries default_entries default_stages].
  rewrite map_entries_default, !js_or_str_empty; reflexivity.
Qed.

(** *** Lists updated by index *)

Lemma length_list_set {A : Type} (l : list A) (i : nat) (x : A) :
  List.length (list_set l i x) = List.length l.
Proof. revert i; induction l as [|y r IH]; intros [|i]; simpl; auto. Qed.

Lemma nth_list_set_same {A : Type} (l : list A) (i : nat) (x d : A) :
  i < List.length l -> nth i (list_set l i x) d = x.
Proof.
  revert i; induction l as [|y r IH]; intros [|i] H; simpl in *; try lia; auto.
  all: apply IH; lia.
Qed.

Lemma nth_list_set_other {A : Type} (l : list A) (i k : nat) (x d : A) :
  k <> i -> nth k (list_set l i x) d = nth k l d.
Proof.
  revert i k; induction l as [|y r IH]; intros [|i] [|k] H; simpl; auto; try lia.
  all: apply IH; lia.
Qed.


Lemma nth_error_list_set_same {A : Type} (l : list A) (i : nat) (x : A) :
  i < List.length l -> nth_error (list_set l i x) i = Some x.
Proof.
  revert i; induction l as [|y r IH]; intros [|i] H; simpl in *; try lia; auto.
  all: apply IH; lia.
Qed.

Lemma forallb_list_set {A : Type} (p : A -> bool) (l : list A) (i : nat) (x : A) :
  forallb p l = true -> p x = true -> forallb p (list_set l i x) = true.
Proof.
  revert i; induction l as [|y r IH]; intros [|i] H Hx; simpl in *; auto;
    apply andb_prop in H as [H1 H2].
  - rewrite Hx, H2; reflexivity.
  - rewrite H1, IH; auto.
Qed.

Lemma forallb_nth {A : Type} (p : A -> bool) (l : list A) (i : nat) (d : A) :
  forallb p l = true -> i < List.length l -> p (nth i l d) = true.
Proof.
  intros H Hi; rewrite forallb_forall in H; apply H, nth_In, Hi.
Qed.

Lemma list_set_app_l {A : Type} (pre suf : list A) (i : nat) (x : A) :
  i < List.length pre -> list_set (pre ++ suf) i x = list_set pre i x ++ suf.
Proof.
  revert i; induction pre as [|y r IH]; intros [|i] H; simpl in *; try lia; auto.
  rewrite IH by lia; reflexivity.
Qed.

Lemma list_set_last {A : Type} (pre : list A) (x y : A) :
  list_set (pre ++ [x]) (List.length pre) y = pre ++ [y].
Proof. induction pre as [|z r IH]; simpl; [reflexivity | now rewrite IH]. Qed.

Lemma last_opt_some {A : Type} (l : list A) (x : A) :
  last_opt l = Some x -> exists pre, l = pre ++ [x].
Proof.
  unfold last_opt; intros H.
  destruct (rev l) as [|y r] eqn:E; [discriminate|].
  injection H as ->; exists (rev r).
  rewrite <- (rev_involutive l), E; reflexivity.
Qed.

Lemma last_opt_app {A : Type} (pre : list A) (x : A) : last_opt (pre ++ [x]) = Some x.
Proof. unfold last_opt; rewrite rev_app_distr; reflexivity. Qed.

Lemma last_opt_none {A : Type} (l : list A) : last_opt l = None -> l = [].
Proof.
  unfold last_opt; intros H.
  destruct (rev l) as [|y r] eqn:E; [|discriminate].
  rewrite <- (rev_involutive l), E; reflexivity.
Qed.

Lemma find_incomplete_some (ss : list Stage) (i : nat) :
  find_incomplete ss = Some i ->
  i < List.length ss /\ completed (nth i ss dummy_stage) = false /\
  forall j, j < i -> completed (nth j ss dummy_stage) = true.
Proof.
  revert i; induction ss as [|s r IH]; simpl; intros i H; [discriminate|].
  destruct (completed s) eqn:Ec; simpl in H.
  - destruct (find_incomplete r) as [j|]; simpl in H; [|discriminate].
    injection H as <-; destruct (IH j eq_refl) as (H1 & H2 & H3).
    repeat split; [lia | exact H2 |].
    intros [|j'] Hj; [exact Ec | apply H3; lia].
  - injection H as <-; repeat split; [lia | exact Ec | intros j Hj; lia].
Qed.

Lemma find_incomplete_none (ss : list Stage) :
  find_incomplete ss = None -> forall s, In s ss -> completed s = true.
Proof.
  induction ss as [|s r IH]; simpl; [tauto|].
  destruct (completed s) eqn:Ec; simpl; [|discriminate].
  destruct (find_incomplete r); simpl; [discriminate|].
  intros _ s' [<- | Hin]; auto.
Qed.

Lemma strict_eq_str (v : jsval) (s : string) : strict_eq v (JStr s) = true -> v = JStr s.
Proof.
  destruct v; simpl; try discriminate.
  intros H; apply String.eqb_eq in H; subst; reflexivity.
Qed.

Lemma last_opt_list_set {A : Type} (l : list A) (i : nat) (y : A) :
  S i < List.length l -> last_opt (list_set l i y) = last_opt l.
Proof.
  intros Hi; destruct l as [|a r] using rev_ind; [simpl in Hi; lia|].
  rewrite length_app in Hi; simpl in Hi.
  rewrite list_set_app_l by lia; rewrite !last_opt_app; reflexivity.
Qed.

(** *** Loading and writing a single row *)

Lemma load_single (r : Row) (oid uid : string) :
  r.(r_id) = oid -> r.(r_user_id) = uid -> oid <> EmptyString ->
  load [r] oid true (Some uid) =
    Some (mkOrder oid uid r.(r_status)
            (p_stages (parse_stages r.(r_stages) r.(r_created_at))) r.(r_created_at)
            (p_address (parse_stages r.(r_stages) r.(r_created_at)))
            (p_instructions (parse_stages r.(r_stages) r.(r_created_at)))).
Proof.
  intros <- <- Hne; unfold load, queryFn, select_single.
  apply String.eqb_neq in Hne; rewrite Hne; simpl.
  rewrite !String.eqb_refl; reflexivity.
Qed.

Lemma load_empty_id (t : Table) (session : bool) (user : option string) :
  load t EmptyString session user = None.
Proof. reflexivity. Qed.


Lemma apply_update_single (r : Row) (st : jsval) (txt : string) :
  apply_update (mkUpdate r.(r_id) r.(r_user_id) st (Some txt)) [r] =
    [mkRow r.(r_id) r.(r_user_id) st (Some txt) r.(r_created_at)].
Proof. unfold apply_update; simpl; rewrite !String.eqb_refl; reflexivity. Qed.



(** *** What a transition does to the table *)

(** Every transition of the page either leaves the table as it is, or
    rewrites the order with the stage list in which one incomplete stage
    [i] is completed at [now], after a successful request. *)
Lemma run_op_cases (op : Op) (ok : bool) (t : Table) (oid uid now : string) :
  out_table (run_op op ok t oid uid now) = t \/
  exists o i st,
    load t oid true (Some uid) = Some o /\ ok = true /\
    i < List.length o.(o_stages) /\ completed (nth i o.(o_stages) dummy_stage) = false /\
    out_table (run_op op ok t oid uid now) =
      apply_update (mkUpdate oid uid st
        (stages_text (list_set o.(o_stages) i (complete_at (nth i o.(o_stages) dummy_stage) now)))) t.
Proof.
  unfold run_op; destruct (load t oid true (Some uid)) as [o|] eqn:El;
    [| destruct op; left; reflexivity].
  destruct op.
  - unfold advanceStage.
    destruct (find_incomplete (o_stages o)) as [i|] eqn:Ef; [|left; reflexivity].
    destruct (S i <? List.length (o_stages o)); [|left; reflexivity].
    unfold write; destruct ok; [right | left; reflexivity].
    destruct (find_incomplete_some _ _ Ef) as (Hi & Hc & _).
    eexists o, i, _; repeat split; eauto.
  - unfold confirmReceipt.
    destruct (last_opt (o_stages o)) as [l|] eqn:Elast; [|left; reflexivity].
    destruct (completed l) eqn:Ec; [left; reflexivity|].
    unfold write; destruct ok; [right | left; reflexivity].
    destruct (last_opt_some _ _ Elast) as [pre Hpre].
    assert (Hn : nth (List.length (o_stages o) - 1) (o_stages o) dummy_stage = l).
    { rewrite Hpre, length_app; simpl; replace (List.length pre + 1 - 1) with (List.length pre) by lia.
      rewrite app_nth2, Nat.sub_diag by lia; reflexivity. }
    exists o, (List.length (o_stages o) - 1), (JStr "Confirmed Received").
    rewrite Hn; repeat split; auto.
    rewrite Hpre, length_app; simpl; lia.
Qed.




(** *** The buttons *)





End OrderFacts.

(** ** Facts about the price helpers *)
Module PricingFacts.
Import Pricing.
Local Open Scope Z_scope.

Lemma getUnitPrice_find (p : Q) (q : Z) (tiers : list Tier) :
  getUnitPrice (mkCartItem p q (Some tiers)) =
    match find (fun t => Z.leb t.(min_quantity) q) tiers with
    | Some t => t.(tier_price)
    | None => p
    end.
Proof. destruct tiers; reflexivity. Qed.

Lemma find_first_qualifying (q : Z) (pre post : list Tier) (t : Tier) :
  Forall (fun t' => q < t'.(min_quantity)) pre -> t.(min_quantity) <= q ->
  find (fun t => Z.leb t.(min_quantity) q) (pre ++ t :: post) = Some t.
Proof.
  induction 1 as [|t' pre Ht' _ IH]; intros Ht; simpl.
  - apply Z.leb_le in Ht; rewrite Ht; reflexivity.
  - replace (Z.leb (min_quantity t') q) with false by (symmetry; apply Z.leb_gt; exact Ht').
    apply IH, Ht.
Qed.

Lemma find_none_qualifying (q : Z) (l : list Tier) :
  Forall (fun t' => q < t'.(min_quantity)) l -> find (fun t => Z.leb t.(min_quantity) q) l = None.
Proof.
  induction 1 as [|t' l Ht' _ IH]; simpl; [reflexivity|].
  replace (Z.leb (min_quantity t') q) with false by (symmetry; apply Z.leb_gt; exact Ht').
  exact IH.
Qed.

Lemma find_sorted_largest (q : Z) (l : list Tier) (t : Tier) :
  StronglySorted (fun a b => b.(min_quantity) <= a.(min_quantity)) l ->
  find (fun t => Z.leb t.(min_quantity) q) l = Some t ->
  forall t', In t' l -> t'.(min_quantity) <= q -> t'.(min_quantity) <= t.(min_quantity).
Proof.
  induction 1 as [|x l Hs IH Hall]; simpl; [discriminate|].
  destruct (Z.leb (min_quantity x) q) eqn:Ex.
  - intros [= <-] t' [-> | Hin] Ht'; [lia|].
    rewrite Forall_forall in Hall; apply (Hall t' Hin).
  - intros Hf t' [-> | Hin] Ht'; [apply Z.leb_gt in Ex; lia | exact (IH Hf t' Hin Ht')].
Qed.

Lemma find_qualifying_exists (q : Z) (l : list Tier) (t' : Tier) :
  In t' l -> t'.(min_quantity) <= q ->
  exists t, find (fun t => Z.leb t.(min_quantity) q) l = Some t.
Proof.
  intros Hin Ht'.
  destruct (find (fun t => Z.leb t.(min_quantity) q) l) as [t|] eqn:E; [eauto|].
  pose proof (find_none _ _ E t' Hin) as H; simpl in H; apply Z.leb_gt in H; lia.
Qed.

End PricingFacts.

(** ** The claims *)
Module Claims.
Import Json Orders Pricing Examples TrackPage OrderFacts PricingFacts.
Local Open Scope string_scope.
Local Open Scope nat_scope.
Local Open Scope list_scope.

Local Ltac neq_by_compute := let H := fresh in intro H; vm_compute in H; discriminate H.

(** *** C1: tier selection *)

(** C1 (counterexample). For the tiers [{5, 90}; {10, 80}] and the base
    price 100, getUnitPrice gives 100, 90 and 90 at the quantities 1, 5
    and 9, but 90 and not 80 at the quantity 10: the first qualifying tier
    in list order wins, not the one with the largest min_quantity. *)
Lemma getUnitPrice_largest_min_counterexample :
  getUnitPrice (mkCartItem 100 1 (Some [mkTier 5 90; mkTier 10 80])) = 100%Q /\
  getUnitPrice (mkCartItem 100 5 (Some [mkTier 5 90; mkTier 10 80])) = 90%Q /\
  getUnitPrice (mkCartItem 100 9 (Some [mkTier 5 90; mkTier 10 80])) = 90%Q /\
  getUnitPrice (mkCartItem 100 10 (Some [mkTier 5 90; mkTier 10 80])) = 90%Q /\
  ~ (getUnitPrice (mkCartItem 100 10 (Some [mkTier 5 90; mkTier 10 80])) == 80)%Q.
Proof.
  split; [reflexivity|]; split; [reflexivity|]; split; [reflexivity|]; split; [reflexivity|].
  neq_by_compute.
Qed.

(** C1 (amended). getUnitPrice returns the base price when the item has no
    tier list, or when no tier has min_quantity at most the quantity;
    otherwise it returns the price of the first such tier in the order the
    tiers are listed.  When the tiers are listed by decreasing
    min_quantity, that tier is the qualifying one with the largest
    min_quantity. *)
Theorem getUnitPrice_first_qualifying (p : Q) (q : Z) (tiers : list Tier) :
  getUnitPrice (mkCartItem p q None) = p /\
  (Forall (fun t => (q < t.(min_quantity))%Z) tiers -> getUnitPrice (mkCartItem p q (Some tiers)) = p) /\
  (forall pre t post, tiers = pre ++ t :: post ->
     Forall (fun t' => (q < t'.(min_quantity))%Z) pre -> (t.(min_quantity) <= q)%Z ->
     getUnitPrice (mkCartItem p q (Some tiers)) = t.(tier_price)) /\
  (StronglySorted (fun a b => (b.(min_quantity) <= a.(min_quantity))%Z) tiers ->
   forall t', In t' tiers -> (t'.(min_quantity) <= q)%Z ->
   exists t, In t tiers /\ (t.(min_quantity) <= q)%Z /\
     (forall t'', In t'' tiers -> (t''.(min_quantity) <= q)%Z ->
                  (t''.(min_quantity) <= t.(min_quantity))%Z) /\
     getUnitPrice (mkCartItem p q (Some tiers)) = t.(tier_price)).
Proof.
  split; [reflexivity|].
  split; [intros H; rewrite getUnitPrice_find, find_none_qualifying by exact H; reflexivity|].
  split.
  - intros pre t post -> Hpre Ht; rewrite getUnitPrice_find, find_first_qualifying by assumption.
    reflexivity.
  - intros Hs t' Hin Ht'.
    destruct (find_qualifying_exists q tiers t' Hin Ht') as [t Ht].
    exists t; repeat split.
    + exact (proj1 (find_some _ _ Ht)).
    + pose proof (proj2 (find_some _ _ Ht)) as H; simpl in H; apply Z.leb_le, H.
    + exact (find_sorted_largest q tiers t Hs Ht).
    + rewrite getUnitPrice_find, Ht; reflexivity.
Qed.

(** Witness of C1: with the tiers listed as [{10, 80}; {5, 90}], the
    quantity 10 gets 80. *)
Lemma getUnitPrice_first_qualifying_witness :
  getUnitPrice (mkCartItem 100 10 (Some [mkTier 10 80; mkTier 5 90])) = 80%Q.
Proof.
  destruct (getUnitPrice_first_qualifying 100 10 [mkTier 10 80; mkTier 5 90]) as (_ & _ & H & _).
  apply (H [] (mkTier 10 80) [mkTier 5 90]); [reflexivity | apply Forall_nil | simpl; lia].
Defined.

(** *** C2: the fallback of the stage parser *)

(** C2 (counterexample). With no stages value at all, the parser decodes
    '[]' and returns an empty stage list, not the default workflow. *)
Lemma parse_stages_absent_counterexample :
  p_stages (parse_stages None ex_created_at) = [] /\
  p_stages (parse_stages None ex_created_at) <> default_stages ex_created_at.
Proof. split; [reflexivity | neq_by_compute]. Qed.

(** C2 (amended). When the stages value is a non-empty text that does not
    decode (or decodes to null), the parser returns the default six-stage
    workflow, whose only completed stage is the first, Order Placed, at the
    creation time, with empty delivery information; the parser is a total
    function and raises nothing.  When the value is absent or the empty
    text, it decodes '[]' and returns an empty stage list. *)
Theorem parse_stages_fallback (created_at : string) :
  (forall raw, raw <> EmptyString -> JSON_parse raw = None ->
     parse_stages (Some raw) created_at =
       mkParsed (default_stages created_at) (JStr EmptyString) (JStr EmptyString)) /\
  (forall raw, JSON_parse raw = Some JNull ->
     parse_stages (Some raw) created_at =
       mkParsed (default_stages created_at) (JStr EmptyString) (JStr EmptyString)) /\
  parse_stages None created_at = mkParsed [] (JStr EmptyString) (JStr EmptyString) /\
  parse_stages (Some EmptyString) created_at = mkParsed [] (JStr EmptyString) (JStr EmptyString) /\
  List.length (default_stages created_at) = 6 /\
  nth_error (default_stages created_at) 0 = Some (mkStage (JStr "Order Placed") (JStr created_at) true) /\
  (forall k s, 0 < k -> nth_error (default_stages created_at) k = Some s -> completed s = false).
Proof.
  split.
  { intros raw Hne Hp; unfold parse_stages; cbv beta iota zeta.
    apply String.eqb_neq in Hne; rewrite Hne, Hp; reflexivity. }
  split.
  { intros raw Hp; unfold parse_stages; cbv beta iota zeta.
    destruct (String.eqb raw EmptyString) eqn:E.
    - apply String.eqb_eq in E; subst raw; discriminate Hp.
    - rewrite Hp; reflexivity. }
  do 4 (split; [reflexivity|]).
  intros [|[|[|[|[|[|[|k]]]]]]] s Hk; simpl; try lia; intros [= <-]; reflexivity.
Qed.

(** Witness of C2: a truncated text, and the text ' null', give the
    default workflow. *)
Lemma parse_stages_fallback_witness :
  parse_stages (Some "[{oops") ex_created_at =
    mkParsed (default_stages ex_created_at) (JStr EmptyString) (JStr EmptyString) /\
  parse_stages (Some " null") ex_created_at =
    mkParsed (default_stages ex_created_at) (JStr EmptyString) (JStr EmptyString).
Proof.
  split.
  - apply (proj1 (parse_stages_fallback ex_created_at)); [neq_by_compute | vm_compute; reflexivity].
  - apply (proj1 (proj2 (parse_stages_fallback ex_created_at))); vm_compute; reflexivity.
Defined.

(** *** C5: the single delivery record *)

(** C5. When the stages text decodes to an array of exactly one entry whose
    stage is 'delivery', the parser returns the default six-stage workflow
    and that entry's address and instructions (each defaulting to ''). *)
Theorem parse_single_delivery_record (raw created_at : string) (e : jsval) :
  JSON_parse raw = Some (JArr [e]) -> getprop e "stage" = Some (JStr "delivery") ->
  parse_stages (Some raw) created_at =
    mkParsed (default_stages created_at) (prop_or_empty e "address") (prop_or_empty e "instructions").
Proof.
  intros Hp He; unfold parse_stages; cbv beta iota zeta.
  destruct (String.eqb raw EmptyString) eqn:E.
  { apply String.eqb_eq in E; subst raw; discriminate Hp. }
  rewrite Hp; cbn [getprop index0]; rewrite He.
  change (strict_eq (JStr "delivery") (JStr "delivery")) with true.
  change (strict_eq (JNum (dbl_of_nat (List.length [e]))) (JNum (DFin 1 0))) with true; cbv beta iota.
  rewrite map_entries_default; reflexivity.
Qed.

(** Witness of C5: [[{stage: 'delivery', address: 'X'}]] gives the default
    workflow and the address 'X'; so does the record of a checkout with a
    geolocation, [[{stage: 'delivery', address: 'X', lat: -1.2921,
    lng: 36.8219}]]. *)
Lemma parse_single_delivery_record_witness :
  parse_stages (Some (ser (JArr [JObj [("stage", JStr "delivery"); ("address", JStr "X")]])))
      ex_created_at =
    mkParsed (default_stages ex_created_at) (JStr "X") (JStr EmptyString) /\
  String.index 0 ":-1.2921,"
    (ser (JArr [JObj [("stage", JStr "delivery"); ("address", JStr "X");
                      ("lat", JNum (dec_to_double true 12921 (-4)));
                      ("lng", JNum (dec_to_double false 368219 (-4)))]])) <> None /\
  String.index 0 ":36.8219}"
    (ser (JArr [JObj [("stage", JStr "delivery"); ("address", JStr "X");
                      ("lat", JNum (dec_to_double true 12921 (-4)));
                      ("lng", JNum (dec_to_double false 368219 (-4)))]])) <> None /\
  parse_stages (Some (ser (JArr [JObj [("stage", JStr "delivery"); ("address", JStr "X");
                                      ("lat", JNum (dec_to_double true 12921 (-4)));
                                      ("lng", JNum (dec_to_double false 368219 (-4)))]])))
      ex_created_at =
    mkParsed (default_stages ex_created_at) (JStr "X") (JStr EmptyString).
Proof.
  split; [|split; [vm_compute; discriminate|split; [vm_compute; discriminate|]]].
  - exact (parse_single_delivery_record
             (ser (JArr [JObj [("stage", JStr "delivery"); ("address", JStr "X")]])) ex_created_at
             (JObj [("stage", JStr "delivery"); ("address", JStr "X")])
             ltac:(vm_compute; reflexivity) ltac:(vm_compute; reflexivity)).
  - exact (parse_single_delivery_record
             (ser (JArr [JObj [("stage", JStr "delivery"); ("address", JStr "X");
                                ("lat", JNum (dec_to_double true 12921 (-4)));
                                ("lng", JNum (dec_to_double false 368219 (-4)))]])) ex_created_at
             (JObj [("stage", JStr "delivery"); ("address", JStr "X");
                    ("lat", JNum (dec_to_double true 12921 (-4)));
                    ("lng", JNum (dec_to_double false 368219 (-4)))])
             ltac:(vm_compute; reflexivity) ltac:(vm_compute; reflexivity)).
Defined.

(** *** C6: textual prices *)

(** C6. parsePriceToNumber reads 'KES 1,200.50' as 1200.50 (the double
    2401/2) and 'n/a' as 0; the price enrichment of the tracking page, which strips the same
    characters but has no '|| 0' after parseFloat, reads 'KES 1,200.50' as
    1200.50 too and 'n/a' as NaN. *)
Theorem parsePriceToNumber_examples :
  parsePriceToNumber (PStr "KES 1,200.50") = Fin (2401 # 2) /\
  parsePriceToNumber (PStr "n/a") = Fin 0 /\
  enrichItemPrice (PStr "KES 1,200.50") None = Fin (2401 # 2) /\
  enrichItemPrice (PStr "n/a") None = NaN.
Proof. repeat split; vm_compute; reflexivity. Qed.

(** *** C9: placement and parsing *)

(** C9. The row checkout places stores its stages as the single record
    {stage: 'delivery', address, instructions, status: 'pending'}; the stage
    parser reads it back as the default six-stage workflow with the address
    and instructions entered at checkout, and the tracking page loads the
    order so for its owner. *)
Theorem placed_order_round_trip (uid : string) (d : DeliveryInfo) (oid created_at : string) (r : Row) :
  placeOrderRow (Some uid) d oid created_at = Some r ->
  r.(r_stages) = JSON_stringify (deliveryStages d) /\
  parse_stages r.(r_stages) r.(r_created_at) =
    mkParsed (default_stages created_at) (JStr d.(address)) (JStr d.(instructions)) /\
  (oid <> EmptyString ->
   load [r] oid true (Some uid) =
     Some (mkOrder oid uid (JStr "Order Placed (Making Order)") (default_stages created_at)
             created_at (JStr d.(address)) (JStr d.(instructions)))).
Proof.
  unfold placeOrderRow; intros Hp.
  destruct (String.eqb (address d) EmptyString) eqn:Ea; [discriminate|].
  apply String.eqb_neq in Ea.
  assert (Hr : r = mkRow oid uid (JStr "Order Placed (Making Order)")
                        (JSON_stringify (deliveryStages d)) created_at) by congruence.
  subst r; cbn [r_stages r_created_at].
  rewrite (parse_delivery_stages d created_at Ea).
  split; [reflexivity | split; [reflexivity|]].
  intros Hne; rewrite load_single by (reflexivity || exact Hne).
  cbn [r_stages r_created_at r_status]; rewrite (parse_delivery_stages d created_at Ea); reflexivity.
Qed.

(** Witness of C9: the example order. *)
Lemma placed_order_round_trip_witness :
  load ex_table "o1" true (Some "u1") = Some ex_order.
Proof.
  exact (proj2 (proj2 (placed_order_round_trip "u1" ex_delivery "o1" ex_created_at ex_row eq_refl))
           ltac:(neq_by_compute)).
Defined.

(** *** C3: confirming receipt *)

(** C3 (counterexample). On a stored five-stage order ending with
    Delivered (stages 1 to 4 incomplete), the page renders the Confirm
    Received button for its owner, and the click writes: the status and
    the last stage change although Payment Pending is still incomplete. *)
Lemma confirmReceipt_gate_counterexample :
  match load legacy_table "o3" true (Some "u1") with
  | Some o =>
      confirm_button_shown o = true /\
      nth_error o.(o_stages) 1 = Some (mkStage (JStr "Payment Pending") (JStr EmptyString) false) /\
      out_writes (confirmReceipt true legacy_table (Some o) (Some "u1") "o3" "2026-01-02T09:00:00Z")
        <> [] /\
      out_table (confirmReceipt true legacy_table (Some o) (Some "u1") "o3" "2026-01-02T09:00:00Z")
        <> legacy_table
  | None => False
  end.
Proof.
  vm_compute; split; [reflexivity|]; split; [reflexivity|]; split; neq_by_compute.
Qed.

(** C3 (amended). Given an order and a user, confirmReceipt sends an update
    exactly when the stage list is non-empty and its last stage is not
    completed, whatever that stage's name and whatever the other stages;
    the update sets the status to 'Confirmed Received' and the stages to the
    list with the last stage completed at the current time.  Without order
    or user it does nothing.  Only the page's Confirm Received button is
    gated on the last stage being named 'Delivered' and incomplete. *)
Theorem confirmReceipt_writes_iff (ok : bool) (t : Table) (o : Order) (uid oid now : string) :
  (out_writes (confirmReceipt ok t (Some o) (Some uid) oid now) <> [] <->
   exists l, last_opt o.(o_stages) = Some l /\ completed l = false) /\
  (forall pre l, o.(o_stages) = pre ++ [l] -> completed l = false ->
     out_writes (confirmReceipt ok t (Some o) (Some uid) oid now) =
       [mkUpdate oid uid (JStr "Confirmed Received") (stages_text (pre ++ [complete_at l now]))]) /\
  (forall order user, order = None \/ user = None -> confirmReceipt ok t order user oid now = nop t) /\
  (confirm_button_shown o = true ->
   exists l, last_opt o.(o_stages) = Some l /\ l.(name) = JStr "Delivered" /\ completed l = false).
Proof.
  split; [|split; [|split]].
  - unfold confirmReceipt; destruct (last_opt (o_stages o)) as [l|] eqn:E.
    + destruct (completed l) eqn:Ec.
      * cbn; split; [intros H; contradiction (H eq_refl) | intros (l' & [= <-] & Hc); congruence].
      * unfold write; split; [intros _; eauto | intros _; destruct ok; discriminate].
    + cbn; split; [intros H; contradiction (H eq_refl) | intros (l' & [=] & _)].
  - intros pre l Hs Hc; unfold confirmReceipt; rewrite Hs, last_opt_app, Hc.
    rewrite length_app; simpl; replace (List.length pre + 1 - 1) with (List.length pre) by lia.
    rewrite list_set_last; unfold write; destruct ok; reflexivity.
  - intros order user [-> | ->]; [reflexivity | destruct order; reflexivity].
  - unfold confirm_button_shown; destruct (last_opt (o_stages o)) as [l|]; [|discriminate].
    intros H; apply andb_prop in H as [H1 H2].
    exists l; split; [reflexivity | split; [apply strict_eq_str, H1 | now apply negb_true_iff]].
Qed.

(** Witness of C3: on the example order confirmReceipt sends an update. *)
Lemma confirmReceipt_writes_iff_witness :
  out_writes (confirmReceipt true ex_table (Some ex_order) (Some "u1") "o1" "2026-01-02T09:00:00Z")
    <> [].
Proof.
  apply (proj2 (proj1 (confirmReceipt_writes_iff true ex_table ex_order "u1" "o1"
                         "2026-01-02T09:00:00Z"))).
  exists (mkStage (JStr "Confirmed Received") (JStr EmptyString) false); split; reflexivity.
Defined.

(** *** C4: advancing *)

(** C4. On a six-stage order whose first incomplete stage is i < 5,
    advanceStage sends one update: status the name of stage i+1, stages the
    list in which only stage i changes, to completed at the current time;
    the row is rewritten when the request succeeds, and the stored text
    parses back to that list.  On an order with no incomplete stage it does
    nothing. *)
Theorem advanceStage_completes_current (ok : bool) (t : Table) (o : Order) (uid oid now : string) :
  (forall i, List.length o.(o_stages) = 6 -> find_incomplete o.(o_stages) = Some i -> i < 5 ->
   exists updated,
     out_writes (advanceStage ok t (Some o) (Some uid) oid now) =
       [mkUpdate oid uid (nth (S i) o.(o_stages) dummy_stage).(name) (stages_text updated)] /\
     out_table (advanceStage ok t (Some o) (Some uid) oid now) =
       (if ok then apply_update (mkUpdate oid uid (nth (S i) o.(o_stages) dummy_stage).(name)
                                  (stages_text updated)) t
        else t) /\
     List.length updated = 6 /\
     nth i updated dummy_stage = mkStage (nth i o.(o_stages) dummy_stage).(name) (JStr now) true /\
     (forall k, k <> i -> nth k updated dummy_stage = nth k o.(o_stages) dummy_stage) /\
     (forallb canonical_stage o.(o_stages) = true ->
      forall c, parse_stages (stages_text updated) c = mkParsed updated (JStr EmptyString) (JStr EmptyString))) /\
  (find_incomplete o.(o_stages) = None -> advanceStage ok t (Some o) (Some uid) oid now = nop t).
Proof.
  split.
  - intros i Hl Hf Hi.
    set (ss := o_stages o) in *.
    set (updated := list_set ss i (complete_at (nth i ss dummy_stage) now)).
    assert (Hs : nth (S i) updated dummy_stage = nth (S i) ss dummy_stage)
      by (apply nth_list_set_other; lia).
    assert (Ha : advanceStage ok t (Some o) (Some uid) oid now =
                 write ok t (mkUpdate oid uid (nth (S i) ss dummy_stage).(name) (stages_text updated))
                   [ERefetch] [EAlert "Failed to advance stage. Please contact support."]).
    { unfold advanceStage; fold ss; rewrite Hf, Hl.
      replace (S i <? 6) with true by (symmetry; apply Nat.ltb_lt; lia).
      fold updated; rewrite Hs; reflexivity. }
    exists updated; rewrite Ha; unfold write.
    split; [destruct ok; reflexivity|].
    split; [destruct ok; reflexivity|].
    split; [unfold updated; rewrite length_list_set; exact Hl|].
    split; [apply nth_list_set_same; lia|].
    split; [intros k Hk; apply nth_list_set_other, Hk|].
    intros Hc c; apply parse_stages_text, forallb_list_set; [exact Hc|].
    apply canonical_complete_at, forallb_nth; [exact Hc | lia].
  - intros Hf; unfold advanceStage; rewrite Hf; reflexivity.
Qed.

(** Witness of C4: on the example order (first incomplete stage 1)
    advanceStage sets the status to Processing. *)
Lemma advanceStage_completes_current_witness :
  exists updated,
    out_writes (advanceStage true ex_table (Some ex_order) (Some "u1") "o1" "2026-01-02T09:00:00Z") =
      [mkUpdate "o1" "u1" (JStr "Processing") (stages_text updated)].
Proof.
  destruct (proj1 (advanceStage_completes_current true ex_table ex_order "u1" "o1"
                     "2026-01-02T09:00:00Z") 1 eq_refl eq_refl ltac:(lia)) as (updated & Hw & _).
  exists updated; exact Hw.
Defined.

(** *** C7: ownership *)




(** *** C8: monotone completion *)



(** *** C10: the last stage *)

(** C10. Every update advanceStage sends carries a stage list of the
    order's length whose last element is the order's last stage unchanged,
    so advanceStage never completes the last stage; the update
    confirmReceipt sends carries the list whose last stage is the order's
    incomplete last stage, completed at the current time. *)
Theorem advanceStage_keeps_last_stage (ok : bool) (t : Table) (order : option Order)
    (user : option string) (oid now : string) :
  (forall u, In u (out_writes (advanceStage ok t order user oid now)) ->
     exists o updated, order = Some o /\ u.(u_stages) = stages_text updated /\
       List.length updated = List.length o.(o_stages) /\ last_opt updated = last_opt o.(o_stages)) /\
  (forall u, In u (out_writes (confirmReceipt ok t order user oid now)) ->
     exists o l updated, order = Some o /\ last_opt o.(o_stages) = Some l /\ completed l = false /\
       u.(u_stages) = stages_text updated /\ last_opt updated = Some (complete_at l now)).
Proof.
  split.
  - intros u; unfold advanceStage.
    destruct order as [o|]; [|intros []]; destruct user as [uid|]; [|intros []].
    destruct (find_incomplete (o_stages o)) as [i|]; [|intros []].
    destruct (S i <? List.length (o_stages o)) eqn:Ei; [|intros []].
    apply Nat.ltb_lt in Ei.
    unfold write; intros Hin; assert (Hu : In u [mkUpdate oid uid
      (nth (S i) (list_set (o_stages o) i (complete_at (nth i (o_stages o) dummy_stage) now)) dummy_stage).(name)
      (stages_text (list_set (o_stages o) i (complete_at (nth i (o_stages o) dummy_stage) now)))])
      by (destruct ok; exact Hin).
    destruct Hu as [<- | []].
    eexists o, _; split; [reflexivity | split; [reflexivity|]].
    split; [apply length_list_set | apply last_opt_list_set, Ei].
  - intros u; unfold confirmReceipt.
    destruct order as [o|]; [|intros []]; destruct user as [uid|]; [|intros []].
    destruct (last_opt (o_stages o)) as [l|] eqn:El; [|intros []].
    destruct (completed l) eqn:Ec; [intros []|].
    destruct (last_opt_some _ _ El) as [pre Hpre].
    unfold write; intros Hin; assert (Hu : In u [mkUpdate oid uid (JStr "Confirmed Received")
      (stages_text (list_set (o_stages o) (List.length (o_stages o) - 1) (complete_at l now)))])
      by (destruct ok; exact Hin).
    destruct Hu as [<- | []].
    eexists o, l, _; split; [reflexivity | split; [exact El | split; [exact Ec | split; [reflexivity|]]]].
    rewrite Hpre, length_app; simpl; replace (List.length pre + 1 - 1) with (List.length pre) by lia.
    rewrite list_set_last; apply last_opt_app.
Qed.

(** Witness of C10: the update advanceStage sends on the example order
    keeps its incomplete last stage. *)
Lemma advanceStage_keeps_last_stage_witness :
  exists updated,
    In (hd (mkUpdate EmptyString EmptyString JUndef None)
           (out_writes (advanceStage true ex_table (Some ex_order) (Some "u1") "o1" "2026-01-02T09:00:00Z")))
       (out_writes (advanceStage true ex_table (Some ex_order) (Some "u1") "o1" "2026-01-02T09:00:00Z")) /\
    last_opt updated = Some (mkStage (JStr "Confirmed Received") (JStr EmptyString) false).
Proof.
  assert (Hin : In (hd (mkUpdate EmptyString EmptyString JUndef None)
           (out_writes (advanceStage true ex_table (Some ex_order) (Some "u1") "o1" "2026-01-02T09:00:00Z")))
       (out_writes (advanceStage true ex_table (Some ex_order) (Some "u1") "o1" "2026-01-02T09:00:00Z")))
    by (vm_compute; left; reflexivity).
  destruct (proj1 (advanceStage_keeps_last_stage true ex_table (Some ex_order) (Some "u1") "o1"
                     "2026-01-02T09:00:00Z") _ Hin) as (o & updated & Ho & _ & _ & Hl).
  exists updated; split; [exact Hin|].
  rewrite Hl; injection Ho as <-; reflexivity.
Defined.

End Claims.

(** ** Further properties of the pages *)

(** *** Helpers *)
Module PageFacts.
Import Json Orders OrderFacts TrackPage.
Local Open Scope string_scope.
Local Open Scope nat_scope.
Local Open Scope list_scope.

Lemma parse_value_object_text (f : nat) (rest : string) :
  parse_value f (String "["%char (String "o"%char rest)) = None.
Proof. destruct f as [|[|[|f]]]; reflexivity. Qed.

Lemma JSON_parse_object_text (rest : string) :
  JSON_parse (String "["%char (String "o"%char rest)) = None.
Proof. unfold JSON_parse; rewrite parse_value_object_text; reflexivity. Qed.

Lemma join_cons_prefix (x : string) (xs : list string) : exists rest, join (x :: xs) = (x ++ rest)%string.
Proof.
  destruct xs as [|y ys].
  - exists EmptyString; symmetry; apply JsonFacts.append_nil_s.
  - eexists; reflexivity.
Qed.

Lemma js_to_string_objects (l : list jsval) :
  Forall (fun x => exists m, x = JObj m) l ->
  l = [] \/ exists rest, js_to_string (JArr l) = String "["%char (String "o"%char rest).
Proof.
  intros H; destruct H as [|x l [m ->] _]; [left; reflexivity|right].
  cbn [js_to_string map].
  destruct (join_cons_prefix "[object Object]" (map (fun x => match x with
                                  | JUndef | JNull => EmptyString
                                  | _ => js_to_string x
                                  end) l)) as [rest Hr].
  rewrite Hr; eexists; reflexivity.
Qed.

Lemma map_name_list_set (l : list Stage) (i : nat) (x : Stage) :
  name x = name (nth i l dummy_stage) -> map name (list_set l i x) = map name l.
Proof.
  revert i; induction l as [|y r IH]; intros [|i] H; simpl in *; auto.
  - rewrite H; reflexivity.
  - rewrite IH by exact H; reflexivity.
Qed.

(** The order of a reachable table keeps the stage names of the workflow. *)
Lemma reachable_names (oid uid : string) (t : Table) :
  reachable oid uid t ->
  exists r, t = [r] /\ r.(r_id) = oid /\ r.(r_user_id) = uid /\
    forallb canonical_stage (p_stages (parse_stages r.(r_stages) r.(r_created_at))) = true /\
    map name (p_stages (parse_stages r.(r_stages) r.(r_created_at))) = workflow_names.
Proof.
  induction 1 as [d c r Hp | op ok now t _ IH].
  - unfold placeOrderRow in Hp.
    destruct (String.eqb (address d) EmptyString) eqn:Ea; [discriminate|].
    apply String.eqb_neq in Ea.
    assert (Hr : r = mkRow oid uid (JStr "Order Placed (Making Order)")
                          (JSON_stringify (deliveryStages d)) c) by congruence.
    subst r; eexists; split; [reflexivity|].
    cbn [r_id r_user_id r_stages r_created_at]; do 2 (split; [reflexivity|]).
    rewrite (parse_delivery_stages d c Ea); split; [apply canonical_default | reflexivity].
  - destruct IH as (r & -> & Hid & Huid & Hc & Hn).
    destruct (run_op_cases op ok [r] oid uid now) as [-> | (o & i & st & Hl & _ & Hi & _ & ->)].
    + exists r; auto.
    + destruct (String.eqb oid EmptyString) eqn:Eo.
      { apply String.eqb_eq in Eo; rewrite Eo, load_empty_id in Hl; discriminate. }
      apply String.eqb_neq in Eo.
      rewrite (load_single r oid uid Hid Huid Eo) in Hl; injection Hl as <-; cbn [o_stages] in *.
      set (ss := p_stages (parse_stages (r_stages r) (r_created_at r))) in *.
      set (upd := list_set ss i (complete_at (nth i ss dummy_stage) now)).
      assert (Hcu : forallb canonical_stage upd = true).
      { apply forallb_list_set; [exact Hc|].
        apply canonical_complete_at, forallb_nth; assumption. }
      rewrite stages_text_some, <- Hid, <- Huid, apply_update_single.
      eexists; split; [reflexivity|].
      cbn [r_id r_user_id r_stages r_created_at]; do 2 (split; [reflexivity|]).
      rewrite <- stages_text_some, parse_stages_text by exact Hcu.
      split; [exact Hcu|].
      cbn [p_stages]; unfold upd; rewrite map_name_list_set; [exact Hn | reflexivity].
Qed.

(** The order the page loads from a reachable table. *)
Lemma reachable_loaded (oid uid : string) (t : Table) (o : Order) :
  reachable oid uid t -> load t oid true (Some uid) = Some o ->
  exists s0 s1 s2 s3 s4 s5,
    o.(o_stages) = [s0; s1; s2; s3; s4; s5] /\
    map name o.(o_stages) = workflow_names.
Proof.
  intros Hr Hl; destruct (reachable_names oid uid t Hr) as (r & -> & Hid & Huid & _ & Hn).
  destruct (String.eqb oid EmptyString) eqn:Eo.
  { apply String.eqb_eq in Eo; rewrite Eo, load_empty_id in Hl; discriminate. }
  apply String.eqb_neq in Eo.
  rewrite (load_single r oid uid Hid Huid Eo) in Hl; injection Hl as <-; cbn [o_stages].
  revert Hn.
  generalize (p_stages (parse_stages (r_stages r) (r_created_at r))) as ss.
  intros [|s0 [|s1 [|s2 [|s3 [|s4 [|s5 [|s6 rest]]]]]]] Hn; try discriminate Hn.
  exists s0, s1, s2, s3, s4, s5; split; [reflexivity | exact Hn].
Qed.

Lemma is_current_iff (ss : list Stage) (idx : nat) :
  is_current ss idx = true <-> find_incomplete ss = Some idx.
Proof.
  unfold is_current; split.
  - destruct (nth_error ss idx) as [s|]; [|discriminate].
    intros H; apply andb_prop in H as [_ H].
    destruct (find_incomplete ss) as [j|]; [|discriminate].
    apply Nat.eqb_eq in H; subst; reflexivity.
  - intros Hf; destruct (find_incomplete_some ss idx Hf) as (Hi & Hc & _).
    rewrite (nth_error_nth' ss dummy_stage Hi), Hc, Hf, Nat.eqb_refl; reflexivity.
Qed.

Lemma reachable_fold (oid uid : string) (nows : list string) (t : Table) :
  reachable oid uid t ->
  reachable oid uid (fold_left (fun t now => out_table (run_op OpAdvance true t oid uid now)) nows t).
Proof.
  revert t; induction nows as [|n ns IH]; intros t Ht; simpl; [exact Ht|].
  apply IH; exact (reach_step oid uid OpAdvance true n t Ht).
Qed.

Lemma map_entries_null (l : list jsval) : In JNull l -> map_entries l = None.
Proof.
  induction l as [|x l IH]; simpl; [tauto|].
  intros [-> | H]; [reflexivity|].
  destruct (normalize_entry x); [rewrite (IH H)|]; reflexivity.
Qed.

End PageFacts.

Module TrackExtras.
Import Json Orders OrderFacts TrackPage PageFacts.
Local Open Scope string_scope.
Local Open Scope nat_scope.
Local Open Scope list_scope.

(** X1. The tracking page shows no item of an order placed at checkout:
    the [items] column holds the array of objects [handlePlaceOrder]
    inserted, [JSON.parse] turns it into the text ['[object Object],...']
    (or [''] for an empty cart), which does not decode, and the [catch]
    leaves the item list empty. *)
Theorem checkout_items_decode_empty (cart : list CartStore.CartLine) :
  parse_items (CheckoutPage.orderItems cart) = Some [].
Proof.
  unfold CheckoutPage.orderItems, parse_items.
  set (l := map _ cart).
  assert (Hobj : Forall (fun x => exists m, x = JObj m) l).
  { unfold l; clear l; induction cart as [|i c IH]; simpl; constructor; [eexists; reflexivity | exact IH]. }
  change (js_or (JArr l) (JStr "[]")) with (JArr l).
  destruct (js_to_string_objects l Hobj) as [-> | [rest ->]].
  - reflexivity.
  - rewrite JSON_parse_object_text; reflexivity.
Qed.

(** X2. In the timeline the entry [idx] is marked current exactly when it
    is the first stage that is not completed ([findIndex]); so at most one
    entry is current, and it is the stage [advanceStage] completes. *)
Theorem timeline_current_unique (ss : list Stage) :
  (forall idx, is_current ss idx = true <-> find_incomplete ss = Some idx) /\
  (forall i j, is_current ss i = true -> is_current ss j = true -> i = j).
Proof.
  split; [apply is_current_iff|].
  intros i j Hi Hj; apply is_current_iff in Hi, Hj; congruence.
Qed.

(** X3. On an order placed at checkout and changed only by the page's own
    transitions, the Mark as Done button can only appear on the last
    entry, Confirmed Received, and a click on it sends nothing: at the
    last stage [advanceStage] has no next stage to move to. *)
Theorem mark_done_is_noop (oid uid : string) (t : Table) (o : Order) (idx : nat)
    (ok : bool) (now : string) :
  reachable oid uid t -> load t oid true (Some uid) = Some o ->
  mark_done_shown o.(o_stages) idx = true ->
  idx = 5 /\ run_op OpAdvance ok t oid uid now = nop t.
Proof.
  intros Hr Hl Hm.
  destruct (reachable_loaded oid uid t o Hr Hl) as (s0 & s1 & s2 & s3 & s4 & s5 & Hs & Hn).
  rewrite Hs in Hn, Hm; simpl in Hn.
  injection Hn as H0 H1 H2 H3 H4 H5.
  assert (Hidx : idx = 5).
  { unfold mark_done_shown in Hm.
    destruct idx as [|[|[|[|[|[|k]]]]]]; cbv beta iota delta [nth_error] in Hm.
    6: reflexivity.
    6: destruct k; discriminate Hm.
    all: apply andb_prop in Hm as [_ Hm].
    1: rewrite H0 in Hm. 2: rewrite H1 in Hm. 3: rewrite H2 in Hm. 4: rewrite H3 in Hm.
    5: rewrite H4 in Hm.
    all: vm_compute in Hm; discriminate Hm. }
  subst idx; split; [reflexivity|].
  unfold mark_done_shown in Hm; apply andb_prop in Hm as [Hc _].
  apply is_current_iff in Hc.
  unfold run_op; rewrite Hl; unfold advanceStage; rewrite Hs in *; rewrite Hc; reflexivity.
Qed.

(** X3 (instance): the order of [Examples.ex_row] after four advances. *)
Lemma mark_done_is_noop_witness :
  exists o,
    reachable "o1" "u1"
      (fold_left (fun t now => out_table (run_op OpAdvance true t "o1" "u1" now))
         ["2026-01-02T00:00:00Z"; "2026-01-03T00:00:00Z"; "2026-01-04T00:00:00Z";
          "2026-01-05T00:00:00Z"] [Examples.ex_row]) /\
    load (fold_left (fun t now => out_table (run_op OpAdvance true t "o1" "u1" now))
            ["2026-01-02T00:00:00Z"; "2026-01-03T00:00:00Z"; "2026-01-04T00:00:00Z";
             "2026-01-05T00:00:00Z"] [Examples.ex_row]) "o1" true (Some "u1") = Some o /\
    mark_done_shown o.(o_stages) 5 = true /\
    (5 = 5 /\
     run_op OpAdvance true
       (fold_left (fun t now => out_table (run_op OpAdvance true t "o1" "u1" now))
          ["2026-01-02T00:00:00Z"; "2026-01-03T00:00:00Z"; "2026-01-04T00:00:00Z";
           "2026-01-05T00:00:00Z"] [Examples.ex_row]) "o1" "u1" "2026-01-06T00:00:00Z" =
     nop (fold_left (fun t now => out_table (run_op OpAdvance true t "o1" "u1" now))
            ["2026-01-02T00:00:00Z"; "2026-01-03T00:00:00Z"; "2026-01-04T00:00:00Z";
             "2026-01-05T00:00:00Z"] [Examples.ex_row])).
Proof.
  set (T := fold_left _ _ _).
  assert (Hr : reachable "o1" "u1" T).
  { apply reachable_fold; apply (reach_place "o1" "u1" Examples.ex_delivery Examples.ex_created_at);
      reflexivity. }
  let v := eval vm_compute in (load T "o1" true (Some "u1")) in
  match v with Some ?o =>
    assert (Hl : load T "o1" true (Some "u1") = Some o) by (vm_compute; reflexivity);
    assert (Hm : mark_done_shown (o_stages o) 5 = true) by (vm_compute; reflexivity);
    exists o
  end.
  split; [exact Hr|]; split; [exact Hl|]; split; [exact Hm|].
  exact (mark_done_is_noop "o1" "u1" T _ 5 true "2026-01-06T00:00:00Z" Hr Hl Hm).
Defined.

(** X4. On an order placed at checkout and changed only by the page's own
    transitions, the Confirm Received button is never rendered: the last
    stage of the workflow is named 'Confirmed Received', never
    'Delivered'. *)
Theorem confirm_button_never_shown (oid uid : string) (t : Table) (o : Order) :
  reachable oid uid t -> load t oid true (Some uid) = Some o ->
  confirm_gate o = Some false.
Proof.
  intros Hr Hl.
  destruct (reachable_loaded oid uid t o Hr Hl) as (s0 & s1 & s2 & s3 & s4 & s5 & Hs & Hn).
  rewrite Hs in Hn; simpl in Hn; injection Hn as _ _ _ _ _ H5.
  unfold confirm_gate; rewrite Hs; cbn [last_opt rev app]; rewrite H5; reflexivity.
Qed.

(** X4 (instance) *)
Lemma confirm_button_never_shown_witness :
  reachable "o1" "u1" [Examples.ex_row] /\
  load [Examples.ex_row] "o1" true (Some "u1") = Some Examples.ex_order /\
  confirm_gate Examples.ex_order = Some false.
Proof.
  assert (Hr : reachable "o1" "u1" [Examples.ex_row])
    by (apply (reach_place "o1" "u1" Examples.ex_delivery Examples.ex_created_at); reflexivity).
  assert (Hl : load [Examples.ex_row] "o1" true (Some "u1") = Some Examples.ex_order)
    by (vm_compute; reflexivity).
  split; [exact Hr|]; split; [exact Hl|].
  exact (confirm_button_never_shown "o1" "u1" _ _ Hr Hl).
Defined.

(** X5. An order whose [stages] column is [null], [''] or ['[]'] loads for
    its owner with an empty stage list, and the render then throws: the
    Confirm Received condition reads [order.stages[-1].name]. *)
Theorem empty_stages_render_throws (r : Row) :
  r.(r_id) <> EmptyString ->
  r.(r_stages) = None \/ r.(r_stages) = Some EmptyString \/ r.(r_stages) = Some "[]" ->
  exists o, load [r] r.(r_id) true (Some r.(r_user_id)) = Some o /\
    o.(o_stages) = [] /\ confirm_gate o = None.
Proof.
  intros Hid Hs.
  rewrite (load_single r r.(r_id) r.(r_user_id) eq_refl eq_refl Hid).
  eexists; split; [reflexivity|].
  assert (Hp : p_stages (parse_stages (r_stages r) (r_created_at r)) = []).
  { destruct Hs as [-> | [-> | ->]]; reflexivity. }
  cbn [o_stages]; rewrite Hp; split; reflexivity.
Qed.

(** X5 (instance) *)
Lemma empty_stages_render_throws_witness :
  exists o, load [mkRow "o2" "u1" (JStr "Order Placed (Making Order)") None Examples.ex_created_at]
              "o2" true (Some "u1") = Some o /\ o.(o_stages) = [] /\ confirm_gate o = None.
Proof.
  apply (empty_stages_render_throws
           (mkRow "o2" "u1" (JStr "Order Placed (Making Order)") None Examples.ex_created_at)).
  - discriminate.
  - left; reflexivity.
Defined.

(** X6. When the [stages] text decodes to an array with a [null] entry,
    the stage parser falls back to the default workflow: [null.name]
    throws inside the [try] block. *)
Theorem null_entry_default_stages (raw : string) (l : list jsval) (created_at : string) :
  JSON_parse raw = Some (JArr l) -> In JNull l ->
  p_stages (parse_stages (Some raw) created_at) = default_stages created_at.
Proof.
  intros Hp Hin.
  unfold parse_stages; cbv beta iota zeta.
  destruct (String.eqb raw EmptyString) eqn:Ee.
  { apply String.eqb_eq in Ee; subst raw; discriminate Hp. }
  rewrite Hp.
  destruct l as [|x [|y l']].
  - destruct Hin.
  - destruct Hin as [-> | []]; reflexivity.
  - change (getprop (JArr (x :: y :: l')) "length")
      with (Some (JNum (dbl_of_nat (List.length (x :: y :: l'))))); cbv beta iota.
    rewrite JsonFacts.strict_eq_length_one; cbn [List.length Nat.eqb].
    destruct (find_address (x :: y :: l')) as [found|]; [|reflexivity].
    rewrite (map_entries_null _ Hin); reflexivity.
Qed.

(** X6 (instance) *)
Lemma null_entry_default_stages_witness :
  JSON_parse "[null,1.5]" = Some (JArr [JNull; JNum (DFin 3 (-1))]) /\
  In JNull [JNull; JNum (DFin 3 (-1))] /\
  p_stages (parse_stages (Some "[null,1.5]") Examples.ex_created_at) =
    default_stages Examples.ex_created_at.
Proof.
  assert (Hp : JSON_parse "[null,1.5]" = Some (JArr [JNull; JNum (DFin 3 (-1))]))
    by (vm_compute; reflexivity).
  assert (Hin : In JNull [JNull; JNum (DFin 3 (-1))]) by (simpl; auto).
  split; [exact Hp|]; split; [exact Hin|].
  exact (null_entry_default_stages _ _ _ Hp Hin).
Defined.

End TrackExtras.

Module CartExtras.
Import Pricing CartStore ProductPage.
Local Open Scope string_scope.
Local Open Scope Z_scope.
Local Open Scope list_scope.

Lemma map_id_update (state : list CartLine) (id : string) (g : CartLine -> CartLine) :
  (forall i, cl_id (g i) = cl_id i) ->
  map cl_id (map (fun i => if String.eqb (cl_id i) id then g i else i) state) = map cl_id state.
Proof.
  intros Hg; induction state as [|i r IH]; simpl; [reflexivity|].
  destruct (String.eqb (cl_id i) id); rewrite IH; [rewrite Hg|]; reflexivity.
Qed.

Lemma filter_all {A : Type} (f : A -> bool) (l : list A) :
  (forall x, In x l -> f x = true) -> filter f l = l.
Proof.
  induction l as [|x r IH]; simpl; intros H; [reflexivity|].
  rewrite (H x (or_introl eq_refl)), IH by auto; reflexivity.
Qed.

Lemma NoDup_map_filter (f : CartLine -> bool) (l : list CartLine) :
  NoDup (map cl_id l) -> NoDup (map cl_id (filter f l)).
Proof.
  induction l as [|x r IH]; simpl; intros H; [constructor|].
  inversion H as [|? ? Hx Hr]; subst.
  destruct (f x); simpl; [|auto].
  constructor; [|auto].
  intros Hin; apply Hx; apply in_map_iff in Hin as (y & Hy & Hiny).
  apply filter_In in Hiny as [Hiny _]; rewrite <- Hy; apply in_map, Hiny.
Qed.

Lemma Forall_filter' {A : Type} (P : A -> Prop) (f : A -> bool) (l : list A) :
  Forall P l -> Forall P (filter f l).
Proof.
  intros H; apply Forall_forall; intros x Hx; apply filter_In in Hx as [Hx _].
  rewrite Forall_forall in H; auto.
Qed.

Lemma totalItems_shift (l : list CartLine) (a : Z) :
  fold_left (fun sum i => sum + cl_quantity i) l a = a + totalItems l.
Proof.
  unfold totalItems; revert a; induction l as [|x r IH]; intros a; simpl; [lia|].
  rewrite (IH (a + cl_quantity x)), (IH (cl_quantity x)); lia.
Qed.

Lemma totalItems_cons (x : CartLine) (l : list CartLine) :
  totalItems (x :: l) = cl_quantity x + totalItems l.
Proof. unfold totalItems at 1; simpl; rewrite totalItems_shift; lia. Qed.

Lemma map_update_absent (l : list CartLine) (id : string) (g : CartLine -> CartLine) :
  (forall x, In x l -> cl_id x <> id) ->
  map (fun i => if String.eqb (cl_id i) id then g i else i) l = l.
Proof.
  induction l as [|x r IH]; simpl; intros H; [reflexivity|].
  destruct (String.eqb (cl_id x) id) eqn:E.
  - apply String.eqb_eq in E; exfalso; exact (H x (or_introl eq_refl) E).
  - rewrite IH by auto; reflexivity.
Qed.

Lemma totalItems_add_existing (l : list CartLine) (p : CartLine) :
  NoDup (map cl_id l) -> (exists x, In x l /\ cl_id x = cl_id p) ->
  totalItems (map (fun i => if String.eqb (cl_id i) (cl_id p)
                            then with_quantity i (cl_quantity i + cl_quantity p) else i) l) =
    totalItems l + cl_quantity p.
Proof.
  induction l as [|x r IH]; intros Hnd (y & Hy & Hid); [destruct Hy|].
  inversion Hnd as [|? ? Hx Hr]; subst.
  cbn [map]; rewrite !totalItems_cons.
  destruct (String.eqb (cl_id x) (cl_id p)) eqn:E.
  - apply String.eqb_eq in E.
    rewrite map_update_absent.
    + cbn [with_quantity cl_quantity]; lia.
    + intros z Hz Hzid; apply Hx; rewrite E, <- Hzid; apply in_map, Hz.
  - destruct Hy as [<- | Hy].
    + apply String.eqb_neq in E; contradiction.
    + rewrite IH by eauto; lia.
Qed.

Lemma find_none_cart (l : list CartLine) (id : string) :
  find (fun i => String.eqb (cl_id i) id) l = None -> forall x, In x l -> cl_id x <> id.
Proof.
  intros H x Hx Hid; apply (find_none _ _ H x) in Hx.
  rewrite Hid, String.eqb_refl in Hx; discriminate.
Qed.

(** X7. Whatever actions are dispatched, [cartReducer] keeps a cart whose
    lines have distinct ids and quantities of at least 1, provided each
    added item has a quantity of at least 1 (as the product page's
    quantity selector guarantees). *)
Theorem cartReducer_invariant (state : list CartLine) (a : CartAction) :
  NoDup (map cl_id state) -> Forall (fun i => 1 <= cl_quantity i) state ->
  (forall p, a = ADD_ITEM p -> 1 <= cl_quantity p) ->
  NoDup (map cl_id (cartReducer state a)) /\
  Forall (fun i => 1 <= cl_quantity i) (cartReducer state a).
Proof.
  intros Hnd Hq Ha; destruct a as [p | id q | id |]; cbn [cartReducer].
  - specialize (Ha p eq_refl).
    destruct (find (fun i => String.eqb (cl_id i) (cl_id p)) state) as [x|] eqn:Ef.
    + split.
      * rewrite map_id_update by reflexivity; exact Hnd.
      * apply Forall_forall; intros y Hy; apply in_map_iff in Hy as (z & <- & Hz).
        rewrite Forall_forall in Hq; specialize (Hq z Hz).
        destruct (String.eqb (cl_id z) (cl_id p)); cbn [with_quantity cl_quantity]; lia.
    + split.
      * rewrite map_app; cbn [map].
        apply (Permutation_NoDup (Permutation_cons_append (map cl_id state) (cl_id p))).
        constructor; [|exact Hnd].
        intros Hin; apply in_map_iff in Hin as (z & Hz & Hinz).
        exact (find_none_cart state (cl_id p) Ef z Hinz Hz).
      * apply Forall_app; split; [exact Hq | constructor; [exact Ha | constructor]].
  - assert (Hm : Forall (fun i => 1 <= cl_quantity i)
                   (map (fun i => if String.eqb (cl_id i) id then with_quantity i (Z.max 1 q) else i)
                        state)).
    { apply Forall_forall; intros y Hy; apply in_map_iff in Hy as (z & <- & Hz).
      rewrite Forall_forall in Hq; specialize (Hq z Hz).
      destruct (String.eqb (cl_id z) id); cbn [with_quantity cl_quantity]; lia. }
    split.
    + apply NoDup_map_filter; rewrite map_id_update by reflexivity; exact Hnd.
    + apply Forall_filter', Hm.
  - split; [apply NoDup_map_filter, Hnd | apply Forall_filter', Hq].
  - split; constructor.
Qed.

(** X7 (instance) *)
Lemma cartReducer_invariant_witness :
  NoDup (map cl_id [mkCartLine "p1" "Honey - 500ml" (Fin 450) 2 None (Some "500ml") (Some "v1")]) /\
  Forall (fun i => 1 <= cl_quantity i)
    [mkCartLine "p1" "Honey - 500ml" (Fin 450) 2 None (Some "500ml") (Some "v1")] /\
  (forall p, UPDATE_QUANTITY "p1" 0 = ADD_ITEM p -> 1 <= cl_quantity p) /\
  (NoDup (map cl_id (cartReducer
     [mkCartLine "p1" "Honey - 500ml" (Fin 450) 2 None (Some "500ml") (Some "v1")]
     (UPDATE_QUANTITY "p1" 0))) /\
   Forall (fun i => 1 <= cl_quantity i) (cartReducer
     [mkCartLine "p1" "Honey - 500ml" (Fin 450) 2 None (Some "500ml") (Some "v1")]
     (UPDATE_QUANTITY "p1" 0))).
Proof.
  assert (H1 : NoDup (map cl_id [mkCartLine "p1" "Honey - 500ml" (Fin 450) 2 None (Some "500ml") (Some "v1")]))
    by (repeat constructor; simpl; tauto).
  assert (H2 : Forall (fun i => 1 <= cl_quantity i)
                 [mkCartLine "p1" "Honey - 500ml" (Fin 450) 2 None (Some "500ml") (Some "v1")])
    by (repeat constructor; simpl; lia).
  assert (H3 : forall p, UPDATE_QUANTITY "p1" 0 = ADD_ITEM p -> 1 <= cl_quantity p)
    by (intros p Hp; discriminate Hp).
  split; [exact H1|]; split; [exact H2|]; split; [exact H3|].
  exact (cartReducer_invariant _ (UPDATE_QUANTITY "p1" 0) H1 H2 H3).
Defined.

(** X8. On a cart whose quantities are at least 1, [UPDATE_QUANTITY] never
    removes a line: the line asked for gets the quantity [max(1, q)] (so 0
    or a negative request leaves it at 1), and the filter that drops
    lines of quantity 0 finds none. *)
Theorem update_quantity_never_removes (state : list CartLine) (id : string) (q : Z) :
  Forall (fun i => 1 <= cl_quantity i) state ->
  cartReducer state (UPDATE_QUANTITY id q) =
    map (fun i => if String.eqb (cl_id i) id then with_quantity i (Z.max 1 q) else i) state.
Proof.
  intros Hq; cbn [cartReducer]; apply filter_all.
  intros y Hy; apply in_map_iff in Hy as (z & <- & Hz).
  rewrite Forall_forall in Hq; specialize (Hq z Hz).
  apply Z.ltb_lt; destruct (String.eqb (cl_id z) id); cbn [with_quantity cl_quantity]; lia.
Qed.

(** X8 (instance) *)
Lemma update_quantity_never_removes_witness :
  Forall (fun i => 1 <= cl_quantity i)
    [mkCartLine "p1" "Honey - 500ml" (Fin 450) 2 None (Some "500ml") (Some "v1")] /\
  cartReducer [mkCartLine "p1" "Honey - 500ml" (Fin 450) 2 None (Some "500ml") (Some "v1")]
    (UPDATE_QUANTITY "p1" 0) =
  map (fun i => if String.eqb (cl_id i) "p1" then with_quantity i (Z.max 1 0) else i)
    [mkCartLine "p1" "Honey - 500ml" (Fin 450) 2 None (Some "500ml") (Some "v1")].
Proof.
  assert (H : Forall (fun i => 1 <= cl_quantity i)
                [mkCartLine "p1" "Honey - 500ml" (Fin 450) 2 None (Some "500ml") (Some "v1")])
    by (repeat constructor; simpl; lia).
  split; [exact H | exact (update_quantity_never_removes _ "p1" 0 H)].
Defined.

(** X9. On a cart whose lines have distinct ids, adding an item raises
    [totalItems] by the item's quantity, whether the product was already
    in the cart (its line's quantity grows) or not (a line is appended). *)
Theorem add_item_total (state : list CartLine) (p : CartLine) :
  NoDup (map cl_id state) ->
  totalItems (cartReducer state (ADD_ITEM p)) = totalItems state + cl_quantity p.
Proof.
  intros Hnd; cbn [cartReducer].
  destruct (find (fun i => String.eqb (cl_id i) (cl_id p)) state) as [x|] eqn:Ef.
  - apply totalItems_add_existing; [exact Hnd|].
    apply find_some in Ef as [Hx Hid]; apply String.eqb_eq in Hid; eauto.
  - unfold totalItems at 1; rewrite fold_left_app; cbn [fold_left].
    fold (totalItems state); reflexivity.
Qed.

(** X9 (instance) *)
Lemma add_item_total_witness :
  NoDup (map cl_id [mkCartLine "p1" "Honey - 500ml" (Fin 450) 2 None (Some "500ml") (Some "v1")]) /\
  totalItems (cartReducer [mkCartLine "p1" "Honey - 500ml" (Fin 450) 2 None (Some "500ml") (Some "v1")]
                (ADD_ITEM (mkCartLine "p1" "Honey - 1L" (Fin 800) 3 None (Some "1L") (Some "v2")))) =
    totalItems [mkCartLine "p1" "Honey - 500ml" (Fin 450) 2 None (Some "500ml") (Some "v1")] + 3.
Proof.
  assert (H : NoDup (map cl_id [mkCartLine "p1" "Honey - 500ml" (Fin 450) 2 None (Some "500ml") (Some "v1")]))
    by (repeat constructor; simpl; tauto).
  split; [exact H | exact (add_item_total _ (mkCartLine "p1" "Honey - 1L" (Fin 800) 3 None (Some "1L") (Some "v2")) H)].
Defined.

End CartExtras.

Module ProductExtras.
Import Json Pricing CartStore JsText ProductPage.
Local Open Scope string_scope.
Local Open Scope Z_scope.
Local Open Scope list_scope.

Lemma strip_prefix_app (p q s r : string) :
  strip_prefix (p ++ q)%string s = Some r -> exists r', strip_prefix p s = Some r'.
Proof.
  revert s; induction p as [|a p IH]; intros s H; simpl in *; [eauto|].
  destruct s as [|b s]; [discriminate|].
  destruct (Ascii.eqb a b); [exact (IH s H) | discriminate].
Qed.

Lemma includes_cons (c : ascii) (s pat : string) :
  includes (String c s) pat =
    match strip_prefix pat (String c s) with
    | Some _ => true
    | None => includes s pat
    end.
Proof. destruct pat; reflexivity. Qed.

Lemma remove_first_cons (pat : string) (c : ascii) (s : string) :
  remove_first pat (String c s) =
    match strip_prefix pat (String c s) with
    | Some r => r
    | None => String c (remove_first pat s)
    end.
Proof. destruct pat; reflexivity. Qed.

(** Without ['KES'] in the text, [replace('KES ', '')] changes nothing. *)
Lemma remove_first_absent (s : string) :
  includes s "KES" = false -> remove_first "KES " s = s.
Proof.
  induction s as [|c s IH]; intros H; [reflexivity|].
  rewrite includes_cons in H; rewrite remove_first_cons.
  destruct (strip_prefix "KES " (String c s)) as [r|] eqn:E.
  - change "KES " with ("KES" ++ " ")%string in E.
    destruct (strip_prefix_app _ _ _ _ E) as [r' E']; rewrite E' in H; discriminate.
  - destruct (strip_prefix "KES" (String c s)); [discriminate|].
    rewrite (IH H); reflexivity.
Qed.

Lemma find_first_size (variants pre post : list ProductVariant) (v : ProductVariant) :
  variants = pre ++ v :: post -> Forall (fun w => w.(v_size) <> v.(v_size)) pre ->
  find (fun w => String.eqb w.(v_size) v.(v_size)) variants = Some v.
Proof.
  intros -> Hpre; induction Hpre as [|w pre Hw _ IH]; simpl.
  - rewrite String.eqb_refl; reflexivity.
  - apply String.eqb_neq in Hw; rewrite Hw; exact IH.
Qed.

Lemma find_by_id_nodup {A : Type} (key : A -> string) (l : list A) (x : A) :
  NoDup (map key l) -> In x l -> find (fun y => String.eqb (key y) (key x)) l = Some x.
Proof.
  induction l as [|y r IH]; simpl; intros Hnd Hin; [destruct Hin|].
  inversion Hnd as [|? ? Hy Hr]; subst.
  destruct Hin as [<- | Hin]; [rewrite String.eqb_refl; reflexivity|].
  destruct (String.eqb (key y) (key x)) eqn:E.
  - apply String.eqb_eq in E; exfalso; apply Hy; rewrite E; apply in_map, Hin.
  - exact (IH Hr Hin).
Qed.

Lemma handleAddToCart_id (p : Product) (variants : list ProductVariant) (st : Selection)
    (i : CartLine) :
  handleAddToCart (Some p) variants st = Some i -> cl_id i = pr_id p.
Proof.
  unfold handleAddToCart.
  destruct (String.eqb (selectedVariantId st) EmptyString); [discriminate|].
  destruct (find_variant variants (selectedVariantId st)); [|discriminate].
  intros H; injection H as <-; reflexivity.
Qed.

Lemma handleAddToCart_quantity (p : Product) (variants : list ProductVariant) (st : Selection)
    (i : CartLine) :
  handleAddToCart (Some p) variants st = Some i -> cl_quantity i = sel_quantity st.
Proof.
  unfold handleAddToCart.
  destruct (String.eqb (selectedVariantId st) EmptyString); [discriminate|].
  destruct (find_variant variants (selectedVariantId st)); [|discriminate].
  intros H; injection H as <-; reflexivity.
Qed.

Lemma run_events_no_variants (evs : list SelectionEvent) :
  selectedVariantId (run_events [] evs) = EmptyString.
Proof.
  unfold run_events.
  assert (H : forall st, selectedVariantId st = EmptyString ->
                selectedVariantId (fold_left (on_event []) evs st) = EmptyString).
  { induction evs as [|ev evs IH]; intros st Hst; simpl; [exact Hst|].
    apply IH; destruct ev; exact Hst. }
  apply H; reflexivity.
Qed.

Lemma run_events_quantity (variants : list ProductVariant) (evs : list SelectionEvent) :
  1 <= sel_quantity (run_events variants evs).
Proof.
  unfold run_events.
  assert (H : forall st, 1 <= sel_quantity st ->
                1 <= sel_quantity (fold_left (on_event variants) evs st)).
  { induction evs as [|ev evs IH]; intros st Hst; simpl; [exact Hst|].
    apply IH; destruct ev; simpl; [exact Hst | lia]. }
  apply H; simpl; lia.
Qed.

(** X10. For a price that is not a number, reading back the displayed
    price with [parsePriceToNumber] gives the price the cart stores: the
    ['KES '] prefix [formatPriceForDisplay] adds is the one the parser
    strips, and the placeholder ['KES ___'] reads as 0 like a missing
    price. *)
Theorem display_price_reads_back (raw : option string) :
  parsePriceToNumber (PStr (formatPriceForDisplay raw)) =
    parsePriceToNumber (match raw with Some s => PStr s | None => PUndef end).
Proof.
  destruct raw as [s|]; [|reflexivity].
  unfold formatPriceForDisplay; destruct (includes s "KES") eqn:E; [reflexivity|].
  unfold parsePriceToNumber.
  change (remove_first "KES " ("KES " ++ s)%string) with s.
  rewrite (remove_first_absent s E); reflexivity.
Qed.

(** X12. Choosing a size in the selector and clicking Add to Cart adds the
    first variant of that size: the item carries the product's id, the
    name ['<product> - <size>'], the variant's price through
    [parsePriceToNumber], the selected quantity, the variant's size and
    id, and the product's tiers with their prices parsed.  Variant ids
    are distinct and non-empty. *)
Theorem add_after_size_choice (p : Product) (variants pre post : list ProductVariant)
    (v : ProductVariant) (st : Selection) :
  variants = pre ++ v :: post -> Forall (fun w => w.(v_size) <> v.(v_size)) pre ->
  NoDup (map v_id variants) -> v.(v_id) <> EmptyString ->
  handleAddToCart (Some p) variants (onSizeChange variants v.(v_size) st) =
    Some (mkCartLine p.(pr_id) (p.(pr_name) ++ " - " ++ v.(v_size))%string
            (parsePriceToNumber v.(v_price)) st.(sel_quantity)
            (option_map (map (fun t => (fst t, parsePriceToNumber (snd t)))) p.(pr_pricing_tiers))
            (Some v.(v_size)) (Some v.(v_id))).
Proof.
  intros Hv Hpre Hnd Hid.
  assert (Hin : In v variants) by (rewrite Hv; apply in_or_app; right; left; reflexivity).
  unfold onSizeChange; rewrite (find_first_size variants pre post v Hv Hpre).
  unfold handleAddToCart, getNumericPriceForCart; cbn [selectedVariantId sel_quantity].
  apply String.eqb_neq in Hid; rewrite Hid.
  unfold find_variant; rewrite (find_by_id_nodup v_id variants v Hnd Hin); reflexivity.
Qed.

(** X12 (instance): two variants of the size 500ml, the first one wins. *)
Lemma add_after_size_choice_witness :
  [mkVariant "v1" "500ml" (PStr "KES 450"); mkVariant "v2" "500ml" (PStr "KES 500");
   mkVariant "v3" "1L" (PStr "800")] =
    [] ++ mkVariant "v1" "500ml" (PStr "KES 450")
       :: [mkVariant "v2" "500ml" (PStr "KES 500"); mkVariant "v3" "1L" (PStr "800")] /\
  Forall (fun w => w.(v_size) <> (mkVariant "v1" "500ml" (PStr "KES 450")).(v_size)) [] /\
  NoDup (map v_id [mkVariant "v1" "500ml" (PStr "KES 450"); mkVariant "v2" "500ml" (PStr "KES 500");
                   mkVariant "v3" "1L" (PStr "800")]) /\
  (mkVariant "v1" "500ml" (PStr "KES 450")).(v_id) <> EmptyString /\
  handleAddToCart (Some (mkProduct "p1" "Honey" (PStr "KES 450") None))
    [mkVariant "v1" "500ml" (PStr "KES 450"); mkVariant "v2" "500ml" (PStr "KES 500");
     mkVariant "v3" "1L" (PStr "800")]
    (onSizeChange [mkVariant "v1" "500ml" (PStr "KES 450"); mkVariant "v2" "500ml" (PStr "KES 500");
                   mkVariant "v3" "1L" (PStr "800")] "500ml" initial_selection) =
    Some (mkCartLine "p1" ("Honey" ++ " - " ++ "500ml")%string (parsePriceToNumber (PStr "KES 450")) 1
            None (Some "500ml") (Some "v1")).
Proof.
  assert (H1 : [mkVariant "v1" "500ml" (PStr "KES 450"); mkVariant "v2" "500ml" (PStr "KES 500");
                mkVariant "v3" "1L" (PStr "800")] =
               [] ++ mkVariant "v1" "500ml" (PStr "KES 450")
                  :: [mkVariant "v2" "500ml" (PStr "KES 500"); mkVariant "v3" "1L" (PStr "800")])
    by reflexivity.
  assert (H2 : Forall (fun w => w.(v_size) <> (mkVariant "v1" "500ml" (PStr "KES 450")).(v_size)) [])
    by constructor.
  assert (H3 : NoDup (map v_id [mkVariant "v1" "500ml" (PStr "KES 450");
                                mkVariant "v2" "500ml" (PStr "KES 500"); mkVariant "v3" "1L" (PStr "800")]))
    by (repeat constructor; simpl; intuition discriminate).
  assert (H4 : (mkVariant "v1" "500ml" (PStr "KES 450")).(v_id) <> EmptyString) by discriminate.
  split; [exact H1|]; split; [exact H2|]; split; [exact H3|]; split; [exact H4|].
  exact (add_after_size_choice (mkProduct "p1" "Honey" (PStr "KES 450") None) _ _ _ _
           initial_selection H1 H2 H3 H4).
Defined.

(** X13. Whatever the user does on the size selector and the quantity
    buttons, a product without variants is never added to the cart (no
    variant id is ever selected), and every item that is added has a
    quantity of at least 1. *)
Theorem add_to_cart_never (p : Product) (variants : list ProductVariant)
    (evs : list SelectionEvent) :
  handleAddToCart (Some p) [] (run_events [] evs) = None /\
  (forall i, handleAddToCart (Some p) variants (run_events variants evs) = Some i ->
             1 <= cl_quantity i).
Proof.
  split.
  - unfold handleAddToCart; rewrite run_events_no_variants; reflexivity.
  - intros i Hi; rewrite (handleAddToCart_quantity _ _ _ _ Hi); apply run_events_quantity.
Qed.

(** X14. The cart keys its lines by product id, so adding a second size of
    a product merges into the line of the first: starting from an empty
    cart, two additions of the same product give one line with the first
    addition's name, size, variant and price and the two quantities
    summed. *)
Theorem second_size_merges (p : Product) (variants : list ProductVariant) (st1 st2 : Selection)
    (i1 i2 : CartLine) :
  handleAddToCart (Some p) variants st1 = Some i1 ->
  handleAddToCart (Some p) variants st2 = Some i2 ->
  cartReducer (cartReducer [] (ADD_ITEM i1)) (ADD_ITEM i2) =
    [with_quantity i1 (cl_quantity i1 + cl_quantity i2)].
Proof.
  intros H1 H2.
  pose proof (handleAddToCart_id _ _ _ _ H1) as E1.
  pose proof (handleAddToCart_id _ _ _ _ H2) as E2.
  cbn [cartReducer find app].
  assert (E : String.eqb (cl_id i1) (cl_id i2) = true) by (apply String.eqb_eq; congruence).
  rewrite E; cbn [map]; rewrite E; reflexivity.
Qed.

(** X14 (instance): 500ml then 1L of the same product. *)
Lemma second_size_merges_witness :
  handleAddToCart (Some (mkProduct "p1" "Honey" (PStr "KES 450") None))
    [mkVariant "v1" "500ml" (PStr "KES 450"); mkVariant "v2" "1L" (PStr "KES 800")]
    (mkSelection "500ml" "v1" 1) =
    Some (mkCartLine "p1" "Honey - 500ml" (Fin 450) 1 None (Some "500ml") (Some "v1")) /\
  handleAddToCart (Some (mkProduct "p1" "Honey" (PStr "KES 450") None))
    [mkVariant "v1" "500ml" (PStr "KES 450"); mkVariant "v2" "1L" (PStr "KES 800")]
    (mkSelection "1L" "v2" 2) =
    Some (mkCartLine "p1" "Honey - 1L" (Fin 800) 2 None (Some "1L") (Some "v2")) /\
  cartReducer (cartReducer [] (ADD_ITEM (mkCartLine "p1" "Honey - 500ml" (Fin 450) 1 None (Some "500ml") (Some "v1"))))
    (ADD_ITEM (mkCartLine "p1" "Honey - 1L" (Fin 800) 2 None (Some "1L") (Some "v2"))) =
    [with_quantity (mkCartLine "p1" "Honey - 500ml" (Fin 450) 1 None (Some "500ml") (Some "v1")) (1 + 2)].
Proof.
  assert (H1 : handleAddToCart (Some (mkProduct "p1" "Honey" (PStr "KES 450") None))
    [mkVariant "v1" "500ml" (PStr "KES 450"); mkVariant "v2" "1L" (PStr "KES 800")]
    (mkSelection "500ml" "v1" 1) =
    Some (mkCartLine "p1" "Honey - 500ml" (Fin 450) 1 None (Some "500ml") (Some "v1")))
    by (vm_compute; reflexivity).
  assert (H2 : handleAddToCart (Some (mkProduct "p1" "Honey" (PStr "KES 450") None))
    [mkVariant "v1" "500ml" (PStr "KES 450"); mkVariant "v2" "1L" (PStr "KES 800")]
    (mkSelection "1L" "v2" 2) =
    Some (mkCartLine "p1" "Honey - 1L" (Fin 800) 2 None (Some "1L") (Some "v2")))
    by (vm_compute; reflexivity).
  split; [exact H1|]; split; [exact H2|].
  exact (second_size_merges _ _ _ _ _ _ H1 H2).
Defined.

(** X15. Only a signed-in user's non-blank comment reaches the [reviews]
    table: each Submit either leaves the table as it was, or appends one
    row with the route's product id, the user's id and the comment as
    typed, whose trimmed text is not empty.  A second Submit right after a
    successful one inserts nothing, because [onSuccess] empties the
    comment. *)
Theorem reviews_only_nonblank (session : bool) (user : option string) (id : string)
    (err : option string) (st : ReviewState) :
  (reviews (handleAddReview session user id err st) = reviews st \/
   exists uid,
     session = true /\ user = Some uid /\ trim st.(newReview).(comment) <> EmptyString /\
     reviews (handleAddReview session user id err st) =
       (reviews st ++ [mkReviewRow id uid st.(newReview).(comment) st.(newReview).(rating)])%list) /\
  (reviews (handleAddReview session user id err st) <> reviews st ->
   forall session' user' id' err',
     reviews (handleAddReview session' user' id' err'
                (handleAddReview session user id err st)) =
       reviews (handleAddReview session user id err st)).
Proof.
  unfold handleAddReview.
  destruct session; cbn [negb]; [|split; [left; reflexivity | intros H; contradiction H; reflexivity]].
  destruct (String.eqb (trim (comment (newReview st))) EmptyString) eqn:Et;
    [split; [left; reflexivity | intros H; contradiction H; reflexivity]|].
  apply String.eqb_neq in Et.
  unfold mutate; destruct user as [uid|];
    [|split; [left; reflexivity | intros H; contradiction H; reflexivity]].
  destruct err as [msg|]; [split; [left; reflexivity | intros H; contradiction H; reflexivity]|].
  split; [right; exists uid; auto|].
  intros _ session' user' id' err'; cbn [newReview comment reviews].
  destruct session'; reflexivity.
Qed.

End ProductExtras.

Module CheckoutExtras.
Import Json Orders OrderFacts CartStore JsText ProductPage CheckoutPage.
Local Open Scope string_scope.

(** X17. A click on Place Order without a session never places an order
    and never clears the cart, even when the account creation succeeds:
    the handler still sees the [user] of the render before the sign-up.
    The sign-up is requested exactly when both prompts were answered with
    non-empty text. *)
Theorem place_order_signed_out (email password : option string) (signUp_ok insert_ok : bool)
    (d : DeliveryInfo) (new_id created_at : string) :
  insertedOrder (handlePlaceOrder None email password signUp_ok insert_ok d new_id created_at) = None /\
  clearedCart (handlePlaceOrder None email password signUp_ok insert_ok d new_id created_at) = false /\
  (signUpCall (handlePlaceOrder None email password signUp_ok insert_ok d new_id created_at) <> None <->
   exists e p, email = Some e /\ password = Some p /\ e <> EmptyString /\ p <> EmptyString).
Proof.
  unfold handlePlaceOrder.
  destruct email as [e|], password as [p|];
    try (cbn [insertedOrder clearedCart signUpCall]; split; [reflexivity|]; split; [reflexivity|];
         split; [intros H; contradiction H; reflexivity | intros (e' & p' & He & Hp & _); discriminate]).
  destruct (String.eqb e EmptyString) eqn:Ee, (String.eqb p EmptyString) eqn:Ep; cbn [negb andb];
    try (cbn [insertedOrder clearedCart signUpCall]; split; [reflexivity|]; split; [reflexivity|];
         split; [intros H; contradiction H; reflexivity|];
         intros (e' & p' & He & Hp & He' & Hp'); injection He as <-; injection Hp as <-;
         apply String.eqb_neq in He', Hp'; congruence).
  apply String.eqb_neq in Ee, Ep.
  destruct signUp_ok; cbn [placeOrderRow insertedOrder clearedCart signUpCall];
    (split; [reflexivity|]; split; [reflexivity|]; split;
     [intros _; exists e, p; auto | intros _; discriminate]).
Qed.

(** X18. Choosing a saved address and placing the order sends it to the
    tracking page: with distinct saved-address ids, the order placed after
    [handleAddressSelect] on an address with a non-empty [fullAddress]
    loads for its owner with that address, the instructions typed, and
    the default workflow. *)
Theorem selected_address_tracked (saved : list SavedAddress) (a : SavedAddress) (f : CheckoutForm)
    (uid new_id created_at : string) (email password : option string) (signUp_ok : bool) :
  NoDup (map sa_id saved) -> In a saved -> a.(fullAddress) <> EmptyString ->
  new_id <> EmptyString ->
  exists r,
    handlePlaceOrder (Some uid) email password signUp_ok true
      (deliveryInfo (handleAddressSelect saved a.(sa_id) f)) new_id created_at =
      mkPlaceResult None (Some r) true /\
    load [r] new_id true (Some uid) =
      Some (mkOrder new_id uid (JStr "Order Placed (Making Order)") (default_stages created_at)
              created_at (JStr a.(fullAddress)) (JStr f.(deliveryInfo).(instructions))).
Proof.
  intros Hnd Hin Ha Hid.
  unfold handleAddressSelect; rewrite (ProductExtras.find_by_id_nodup sa_id saved a Hnd Hin).
  cbn [deliveryInfo]; unfold handlePlaceOrder, placeOrderRow; cbn [address].
  apply String.eqb_neq in Ha as Ha'; rewrite Ha'.
  exists (mkRow new_id uid (JStr "Order Placed (Making Order)")
            (JSON_stringify (deliveryStages (mkDeliveryInfo (fullAddress a)
                                               (instructions (deliveryInfo f))))) created_at).
  split; [reflexivity|].
  rewrite load_single; [| reflexivity | reflexivity | exact Hid].
  cbn [r_stages r_created_at r_status].
  rewrite (parse_delivery_stages (mkDeliveryInfo (fullAddress a) (instructions (deliveryInfo f)))
             created_at Ha); reflexivity.
Qed.

(** X18 (instance) *)
Lemma selected_address_tracked_witness :
  NoDup (map sa_id [mkSavedAddress "a1" "Home" "12 Moi Avenue, Nairobi" true;
                    mkSavedAddress "a2" "Work" "4 Kenyatta Road, Nairobi" false]) /\
  In (mkSavedAddress "a2" "Work" "4 Kenyatta Road, Nairobi" false)
     [mkSavedAddress "a1" "Home" "12 Moi Avenue, Nairobi" true;
      mkSavedAddress "a2" "Work" "4 Kenyatta Road, Nairobi" false] /\
  "4 Kenyatta Road, Nairobi" <> EmptyString /\ "o1" <> EmptyString /\
  exists r,
    handlePlaceOrder (Some "u1") None None true true
      (deliveryInfo (handleAddressSelect
         [mkSavedAddress "a1" "Home" "12 Moi Avenue, Nairobi" true;
          mkSavedAddress "a2" "Work" "4 Kenyatta Road, Nairobi" false] "a2"
         (mkCheckoutForm (mkDeliveryInfo EmptyString "Call on arrival") EmptyString)))
      "o1" Examples.ex_created_at = mkPlaceResult None (Some r) true /\
    load [r] "o1" true (Some "u1") =
      Some (mkOrder "o1" "u1" (JStr "Order Placed (Making Order)")
              (default_stages Examples.ex_created_at) Examples.ex_created_at
              (JStr "4 Kenyatta Road, Nairobi") (JStr "Call on arrival")).
Proof.
  assert (H1 : NoDup (map sa_id [mkSavedAddress "a1" "Home" "12 Moi Avenue, Nairobi" true;
                                 mkSavedAddress "a2" "Work" "4 Kenyatta Road, Nairobi" false]))
    by (repeat constructor; simpl; intuition discriminate).
  assert (H2 : In (mkSavedAddress "a2" "Work" "4 Kenyatta Road, Nairobi" false)
                 [mkSavedAddress "a1" "Home" "12 Moi Avenue, Nairobi" true;
                  mkSavedAddress "a2" "Work" "4 Kenyatta Road, Nairobi" false])
    by (simpl; auto).
  assert (H3 : "4 Kenyatta Road, Nairobi" <> EmptyString) by discriminate.
  assert (H4 : "o1" <> EmptyString) by discriminate.
  split; [exact H1|]; split; [exact H2|]; split; [exact H3|]; split; [exact H4|].
  exact (selected_address_tracked _ _ (mkCheckoutForm (mkDeliveryInfo EmptyString "Call on arrival") EmptyString)
           "u1" "o1" Examples.ex_created_at None None true H1 H2 H3 H4).
Defined.

(** X19. The auto-fill effect never overwrites an address that has been
    typed or chosen: with a non-empty address the form is left as it is.
    With an empty address it fills in the first saved address marked
    default and selects it. *)
Theorem autofill_keeps_typed_address (saved : list SavedAddress) (f : CheckoutForm) :
  (f.(deliveryInfo).(address) <> EmptyString -> autofill saved f = f) /\
  (forall a, f.(deliveryInfo).(address) = EmptyString -> find (fun a => a.(isDefault)) saved = Some a ->
   autofill saved f =
     mkCheckoutForm (mkDeliveryInfo a.(fullAddress) f.(deliveryInfo).(instructions)) a.(sa_id)).
Proof.
  unfold autofill; split.
  - intros H; apply String.eqb_neq in H; rewrite H, andb_false_r; reflexivity.
  - intros a H Hf; rewrite H, Hf.
    destruct saved as [|s r]; [discriminate|reflexivity].
Qed.

End CheckoutExtras.
